(** * lsmysql: the MySQL driver of libschema

    A shallow embedding of [lsmysql/mysql.go]: the migration executor
    ([DoOneMigration], [saveStatus]), the tracking-table naming rules
    ([trackingSchemaTable]), the lock manager ([LockMigrationsTable],
    [UnlockMigrationsTable]) and the status loader ([LoadStatus]).

    The database is an explicit [World]: the committed rows of the tracking
    tables, the open transactions with their uncommitted tracking writes, and
    the trace of every call made on the [database/sql] handle.  Which calls
    fail is decided by a [Driver], a parameter of the whole development.
    Go's [error] is [option error], [nil] being [None]. *)

From Stdlib Require Import String Ascii List Bool Arith Lia.
Import ListNotations.

Open Scope string_scope.
Open Scope list_scope.

Infix "+++" := String.append (at level 60, right associativity).

(** ** Errors ([github.com/pkg/errors]) *)

(** An error is a message ([errors.New], [errors.Errorf], a driver error) or a
    cause wrapped with a message ([errors.Wrap], [errors.Wrapf]). *)
Inductive error : Type :=
| ErrNew (msg : string)
| ErrWrap (cause : error) (msg : string).

(** [err.Error()]: a wrapped error prints as [msg: cause]. *)
Fixpoint Error (e : error) : string :=
  match e with
  | ErrNew msg => msg
  | ErrWrap cause msg => msg +++ ": " +++ Error cause
  end.

(** [errors.Wrap(err, msg)] and [errors.Wrapf]: [nil] stays [nil]. *)
Definition Wrap (err : option error) (msg : string) : option error :=
  match err with
  | None => None
  | Some cause => Some (ErrWrap cause msg)
  end.

(** The innermost error of a chain ([errors.Cause]). *)
Fixpoint Cause (e : error) : error :=
  match e with
  | ErrNew msg => ErrNew msg
  | ErrWrap cause _ => Cause cause
  end.

(** [sql.ErrTxDone], returned by any call on a finished transaction. *)
Definition ErrTxDone : error :=
  ErrNew "sql: transaction has already been committed or rolled back".

(** ** Identifiers *)

Definition is_letter (c : ascii) : bool :=
  let n := nat_of_ascii c in
  (Nat.leb 65 n && Nat.leb n 90) || (Nat.leb 97 n && Nat.leb n 122).

Definition is_word (c : ascii) : bool :=
  let n := nat_of_ascii c in
  is_letter c || (Nat.leb 48 n && Nat.leb n 57) || Nat.eqb n 95.

Fixpoint all_word (s : string) : bool :=
  match s with
  | EmptyString => true
  | String c rest => is_word c && all_word rest
  end.

(** [simpleIdentifierRE.MatchString], the regular expression being
    [\A[A-Za-z][A-Za-z0-9_]*\z]. *)
Definition simpleIdentifierRE (s : string) : bool :=
  match s with
  | EmptyString => false
  | String c rest => is_letter c && all_word rest
  end.

(** [strings.Split(s, ".")]. *)
Fixpoint Split_dot (s : string) : list string :=
  match s with
  | EmptyString => [EmptyString]
  | String c rest =>
      if Ascii.eqb c "."%char then EmptyString :: Split_dot rest
      else match Split_dot rest with
           | [] => [String c EmptyString]
           | h :: t => String c h :: t
           end
  end.

(** ** The data of libschema that the driver touches *)

(** Modelled from the spec: the types of libschema are declared outside this
    package.  A migration is identified by (library, name); its status is a
    done flag and the text of the last error; it carries an optional skip-if
    condition, of which the driver asks only whether it is there. *)
Record MigrationName : Type := mkName { Library : string; Name : string }.

Record MigrationStatus : Type := mkStatus { Done : bool; ErrorText : string }.

Record MigrationBase : Type := mkBase {
  BaseName : MigrationName;
  Status : MigrationStatus;
  skipIf : bool }.

(** Modelled from the spec: [MigrationBase.HasSkipIf], whether the migration
    declares a skip-if condition. *)
Definition HasSkipIf (b : MigrationBase) : bool := skipIf b.

(** A transaction handle ([*sql.Tx]) is the number the driver gave it. *)
Definition Tx : Type := nat.

(** [mmigration]: two nullable functions of the transaction handle.  A
    generator yields SQL text, a computed action yields its error.  What a
    computed action does to user tables is outside the model. *)
Record mmigration : Type := mkMigration {
  Base : MigrationBase;
  script : option (Tx -> string);
  computed : option (Tx -> option error) }.

(** Modelled from the spec: [m.Base().SetStatus(s)], the status mutation the
    core performs in memory. *)
Definition SetStatus (m : mmigration) (s : MigrationStatus) : mmigration :=
  {| Base := {| BaseName := BaseName (Base m); Status := s;
                skipIf := skipIf (Base m) |};
     script := script m;
     computed := computed m |}.

Record Options : Type := mkOptions {
  TrackingTable : string;
  SchemaOverride : string }.

(** Modelled from the spec: [libschema.Database], its options (of which the
    transaction options are not followed) and the migrations it knows. *)
Record Database : Type := mkDatabase {
  DbOptions : Options;
  migrations : list mmigration }.

Definition name_eqb (a b : MigrationName) : bool :=
  String.eqb (Library a) (Library b) && String.eqb (Name a) (Name b).

(** Modelled from the spec: [Database.Lookup] is declared outside this
    package; a row "matches a known migration" when a registered migration
    has its (library, name). *)
Definition Lookup (d : Database) (n : MigrationName) : option mmigration :=
  find (fun m => name_eqb (BaseName (Base m)) n) (migrations d).

(** [m.Base().SetStatus(s)] on the migration that [Lookup] found: the
    registered migration is shared with the database, so the database sees
    the new status. *)
Fixpoint set_status_in (ms : list mmigration) (n : MigrationName)
    (s : MigrationStatus) : list mmigration :=
  match ms with
  | [] => []
  | m :: rest =>
      if name_eqb (BaseName (Base m)) n then SetStatus m s :: rest
      else m :: set_status_in rest n s
  end.

Definition SetStatusOf (d : Database) (n : MigrationName)
    (s : MigrationStatus) : Database :=
  {| DbOptions := DbOptions d; migrations := set_status_in (migrations d) n s |}.

(** Modelled from the spec: the three classes that [CheckScript], declared
    in a sibling file, sorts a script into. *)
Inductive CheckResult : Type := Safe | DataAndDDL | NonIdempotentDDL.

(** ** The database *)

(** A row of a tracking table; [updated_at] is not modelled. *)
Record Row : Type := mkRow {
  row_table : string;
  row_library : string;
  row_migration : string;
  row_done : bool;
  row_error : string }.

(** The statements this file sends. *)
Inductive Statement : Type :=
| StUse (schema : string)
| StScript (sql : string)
| StReplaceStatus (r : Row)
| StCreateSchema (schema : string)
| StCreateTable (table : string)
| StGetLock (name : string)
| StReleaseLock (name : string)
| StSelectStatus (table : string).

(** A [sql.Result]. *)
Inductive sqlResult : Type := ResultOf (st : Statement).

(** One call on the database handle; [tx = None] is a call on the pool. *)
Inductive Event : Type :=
| EvBeginTx (tx : Tx) (res : option error)
| EvExec (tx : option Tx) (st : Statement) (res : option error)
| EvCommit (tx : Tx) (res : option error)
| EvRollback (tx : Tx).

Record World : Type := mkWorld {
  tracking : list Row;
  open_tx : list (Tx * list Row);
  next_tx : nat;
  trace : list Event }.

(** Which calls fail, and with what error. *)
Record Driver : Type := mkDriver {
  begin_fault : Tx -> option error;
  exec_fault : option Tx -> Statement -> option error;
  commit_fault : Tx -> option error;
  scan_fault : Row -> option error }.

Definition same_key (a b : Row) : bool :=
  String.eqb (row_table a) (row_table b)
  && String.eqb (row_library a) (row_library b)
  && String.eqb (row_migration a) (row_migration b).

(** [REPLACE INTO]: the row with the same primary key goes, the new one
    comes. *)
Definition replace_row (t : list Row) (r : Row) : list Row :=
  filter (fun x => negb (same_key r x)) t ++ [r].

Fixpoint pending (tx : Tx) (o : list (Tx * list Row)) : option (list Row) :=
  match o with
  | [] => None
  | (t, ws) :: rest => if Nat.eqb t tx then Some ws else pending tx rest
  end.

Fixpoint add_pending (tx : Tx) (r : Row) (o : list (Tx * list Row))
    : list (Tx * list Row) :=
  match o with
  | [] => []
  | (t, ws) :: rest =>
      if Nat.eqb t tx then (t, ws ++ [r]) :: rest
      else (t, ws) :: add_pending tx r rest
  end.

Definition close_tx (tx : Tx) (o : list (Tx * list Row)) : list (Tx * list Row) :=
  filter (fun e => negb (Nat.eqb (fst e) tx)) o.

Definition log (e : Event) (w : World) : World :=
  {| tracking := tracking w; open_tx := open_tx w; next_tx := next_tx w;
     trace := trace w ++ [e] |}.

(** ** The state monad of database calls *)

Definition M (A : Type) : Type := World -> A * World.

Definition ret {A : Type} (a : A) : M A := fun w => (a, w).

Definition bind {A B : Type} (m : M A) (k : A -> M B) : M B :=
  fun w => let (a, w') := m w in k a w'.

Notation "x <- m ;; k" := (bind m (fun x => k))
  (at level 61, m at next level, right associativity).
Notation "' p <- m ;; k" := (bind m (fun x => let p := x in k))
  (at level 61, p pattern, m at next level, right associativity).

(** The [MySQL] driver object.  [lock sync.Mutex] serialises callers and has
    no counterpart in a sequential model; [db] is the [World]. *)
Record MySQL : Type := mkMySQL {
  lockTx : option Tx;
  lockStr : string;
  databaseName : string;
  p_trackingSchemaTable : Database -> string * string * option error;
  skipDatabase : bool }.

Definition set_lockStr (p : MySQL) (s : string) : MySQL :=
  {| lockTx := lockTx p; lockStr := s; databaseName := databaseName p;
     p_trackingSchemaTable := p_trackingSchemaTable p;
     skipDatabase := skipDatabase p |}.

Definition set_lockTx (p : MySQL) (t : option Tx) : MySQL :=
  {| lockTx := t; lockStr := lockStr p; databaseName := databaseName p;
     p_trackingSchemaTable := p_trackingSchemaTable p;
     skipDatabase := skipDatabase p |}.

(** What a function leaves behind when it stops: the value it returned, or
    nothing because it panicked. *)
Inductive Outcome (A : Type) : Type :=
| Returned (a : A)
| Panicked.
Arguments Returned {A} a.
Arguments Panicked {A}.

(** The variables of [DoOneMigration] that its deferred functions read: the
    transaction [tx] (reassigned when a second one is opened), the named
    results [result] and [err], and whether the body panicked. *)
Record Frame : Type := mkFrame {
  f_tx : Tx;
  f_result : option sqlResult;
  f_err : option error;
  f_panic : bool }.

(** [trackingSchemaTable], the default of the [p.trackingSchemaTable] field. *)
Definition trackingSchemaTable (d : Database) : string * string * option error :=
  let tableName := TrackingTable (DbOptions d) in
  match Split_dot tableName with
  | [schema; table] =>
      if negb (simpleIdentifierRE schema) then
        ("", "", Some (ErrNew ("Tracking table schema name must be a simple identifier, not '" +++ schema +++ "'")))
      else if negb (simpleIdentifierRE table) then
        ("", "", Some (ErrNew ("Tracking table table name must be a simple identifier, not '" +++ table +++ "'")))
      else (schema, schema +++ "." +++ table, None)
  | [_] =>
      if negb (simpleIdentifierRE tableName) then
        ("", "", Some (ErrNew ("Tracking table table name must be a simple identifier, not '" +++ tableName +++ "'")))
      else ("", tableName, None)
  | _ => ("", "", Some (ErrNew ("Tracking table '" +++ tableName +++ "' is not valid")))
  end.

(** [p.trackingTable(d)]: the error of [p.trackingSchemaTable] is dropped. *)
Definition trackingTable (p : MySQL) (d : Database) : string :=
  let '(_, table, _) := p_trackingSchemaTable p d in table.

(** [New] without options: no lock held, the default naming rule, and the
    database's [SchemaOverride] as [databaseName]. *)
Definition New (schemaOverride : string) : MySQL :=
  {| lockTx := None; lockStr := ""; databaseName := schemaOverride;
     p_trackingSchemaTable := trackingSchemaTable; skipDatabase := false |}.

(** The row that the [REPLACE INTO] of [saveStatus] carries: the table is
    [p.trackingTable(d)], the values are the migration's library and name,
    [done] and [estr]. *)
Definition status_row (p : MySQL) (d : Database) (m : mmigration)
    (done : bool) (estr : string) : Row :=
  {| row_table := trackingTable p d;
     row_library := Library (BaseName (Base m));
     row_migration := Name (BaseName (Base m));
     row_done := done;
     row_error := estr |}.

Section Code.

(** [CheckScript] lives in a sibling file of the package and
    [MigrationName.String] in libschema: both are parameters. *)
Variable CheckScript : string -> CheckResult.
Variable MigrationName_String : MigrationName -> string.
Variable drv : Driver.

(** [d.DB().BeginTx]: every call takes the next handle number.  The context
    and the transaction options are not followed. *)
Definition BeginTx : M (Tx + error) := fun w =>
  let id := next_tx w in
  match begin_fault drv id with
  | Some e =>
      (inr e, {| tracking := tracking w; open_tx := open_tx w;
                 next_tx := S id;
                 trace := trace w ++ [EvBeginTx id (Some e)] |})
  | None =>
      (inl id, {| tracking := tracking w; open_tx := (id, []) :: open_tx w;
                  next_tx := S id;
                  trace := trace w ++ [EvBeginTx id None] |})
  end.

(** The effect of a statement that went through: a [REPLACE] is kept with
    the transaction until it commits; the other statements act on what the
    model does not follow. *)
Definition apply_stmt (tx : Tx) (st : Statement) (w : World) : World :=
  match st with
  | StReplaceStatus r =>
      {| tracking := tracking w; open_tx := add_pending tx r (open_tx w);
         next_tx := next_tx w; trace := trace w |}
  | _ => w
  end.

(** [tx.Exec] (and [tx.QueryRow(...).Scan] for the lock). *)
Definition TxExec (tx : Tx) (st : Statement) : M (option sqlResult * option error) :=
  fun w =>
  match pending tx (open_tx w) with
  | None => ((None, Some ErrTxDone), log (EvExec (Some tx) st (Some ErrTxDone)) w)
  | Some _ =>
      match exec_fault drv (Some tx) st with
      | Some e => ((None, Some e), log (EvExec (Some tx) st (Some e)) w)
      | None => ((Some (ResultOf st), None),
                 log (EvExec (Some tx) st None) (apply_stmt tx st w))
      end
  end.

(** [tx.Commit]: the pending tracking writes become rows.  A commit that
    fails leaves nothing behind. *)
Definition TxCommit (tx : Tx) : M (option error) := fun w =>
  match pending tx (open_tx w) with
  | None => (Some ErrTxDone, log (EvCommit tx (Some ErrTxDone)) w)
  | Some ws =>
      match commit_fault drv tx with
      | Some e =>
          (Some e, {| tracking := tracking w; open_tx := close_tx tx (open_tx w);
                      next_tx := next_tx w;
                      trace := trace w ++ [EvCommit tx (Some e)] |})
      | None =>
          (None, {| tracking := fold_left replace_row ws (tracking w);
                    open_tx := close_tx tx (open_tx w);
                    next_tx := next_tx w;
                    trace := trace w ++ [EvCommit tx None] |})
      end
  end.

(** [tx.Rollback]: the pending writes are dropped. *)
Definition TxRollback (tx : Tx) : M (option error) := fun w =>
  (match pending tx (open_tx w) with None => Some ErrTxDone | Some _ => None end,
   {| tracking := tracking w; open_tx := close_tx tx (open_tx w);
      next_tx := next_tx w; trace := trace w ++ [EvRollback tx] |}).

(** [d.DB().ExecContext]: a statement outside any transaction. *)
Definition DBExec (st : Statement) : M (option error) := fun w =>
  (exec_fault drv None st, log (EvExec None st (exec_fault drv None st)) w).

(** [d.DB().QueryContext] of the status query: the committed rows of the
    table. *)
Definition DBQuery (table : string) : M (list Row + error) := fun w =>
  match exec_fault drv None (StSelectStatus table) with
  | Some e => (inr e, log (EvExec None (StSelectStatus table) (Some e)) w)
  | None =>
      (inl (filter (fun r => String.eqb (row_table r) table) (tracking w)),
       log (EvExec None (StSelectStatus table) None) w)
  end.

(** [saveStatus] (lines 293-311); [log.Info] leaves no trace here. *)
Definition saveStatus (p : MySQL) (tx : Tx) (d : Database) (m : mmigration)
    (done : bool) (migrationError : option error) : M (option error) :=
  let estr := match migrationError with
              | Some e => Error e
              | None => ""
              end in
  let q := StReplaceStatus (status_row p d m done estr) in
  '(_, err) <- TxExec tx q ;;
  ret (Wrap err ("Save status for " +++ MigrationName_String (BaseName (Base m)))).

(** Lines 169-177 of [DoOneMigration]: the namespace switch.  [Some e] is the
    early [return nil, e]. *)
Definition useSchemaOverride (d : Database) (m : mmigration) (tx : Tx)
    : M (option error) :=
  let override := SchemaOverride (DbOptions d) in
  if String.eqb override "" then ret None
  else if negb (simpleIdentifierRE override) then
    ret (Some (ErrNew ("Options.SchemaOverride must be a simple identifier, not '" +++ override +++ "'")))
  else
    '(_, err) <- TxExec tx (StUse override) ;;
    ret (Wrap err ("Set search path to " +++ override +++ " for "
                   +++ MigrationName_String (BaseName (Base m)))).

(** Lines 178-196: the attempt itself, giving [result] and [err].  A
    migration with neither function calls a nil function and panics. *)
Definition attempt (m : mmigration) (tx : Tx)
    : M (Outcome (option sqlResult * option error)) :=
  match script m with
  | Some generator =>
      let script := generator tx in
      let err :=
        match CheckScript script with
        | Safe => None
        | DataAndDDL =>
            Some (ErrNew "Migration combines DDL (Data Definition Language [schema changes]) and data manipulation")
        | NonIdempotentDDL =>
            if negb (HasSkipIf (Base m)) then
              Some (ErrNew "Unconditional migration has non-idempotent DDL (Data Definition Language [schema changes])")
            else None
        end in
      '(result, err) <- match err with
                        | None => TxExec tx (StScript script)
                        | Some _ => ret (None, err)
                        end ;;
      ret (Returned (result, Wrap err script))
  | None =>
      match computed m with
      | Some action => ret (Returned (None, action tx))
      | None => ret Panicked
      end
  end.

(** Lines 197-214: record the outcome, in a second transaction when the
    attempt failed. *)
Definition recordStatus (p : MySQL) (d : Database) (m : mmigration) (tx : Tx)
    (result : option sqlResult) (err : option error) : M Frame :=
  let name := MigrationName_String (BaseName (Base m)) in
  let save (tx : Tx) (err : option error) : M Frame :=
    txerr <- saveStatus p tx d m (match err with None => true | Some _ => false end) err ;;
    ret {| f_tx := tx; f_result := result;
           f_err := match txerr, err with
                    | None, _ => err
                    | Some te, None => Some te
                    | Some te, Some e =>
                        Some (ErrWrap e ("Save status for " +++ name +++ " also failed: " +++ Error te))
                    end;
           f_panic := false |} in
  match err with
  | Some e =>
      let err := ErrWrap e ("Problem with migration " +++ name) in
      _ <- TxRollback tx ;;
      r <- BeginTx ;;
      match r with
      | inr txerr =>
          ret {| f_tx := tx; f_result := None;
                 f_err := Some (ErrWrap err ("Tx for saving status for " +++ name
                                             +++ " also failed with " +++ Error txerr));
                 f_panic := false |}
      | inl ntx => save ntx (Some err)
      end
  | None => save tx None
  end.

(** The function deferred at lines 162-168.  It reads [tx] and [err] when
    the function leaves, so it acts on the second transaction when one was
    opened. *)
Definition deferred_finish (m : mmigration) (fr : Frame) : M Frame :=
  match f_err fr with
  | Some _ => _ <- TxRollback (f_tx fr) ;; ret fr
  | None =>
      cerr <- TxCommit (f_tx fr) ;;
      ret {| f_tx := f_tx fr; f_result := f_result fr;
             f_err := Wrap cerr ("Commit migration " +++ MigrationName_String (BaseName (Base m)));
             f_panic := f_panic fr |}
  end.

(** The function deferred at lines 151-157, the last to run: the in-memory
    status becomes done when [err] is nil. *)
Definition deferred_status (m : mmigration) (fr : Frame)
    : Outcome (option sqlResult * option error) * mmigration :=
  (if f_panic fr then Panicked else Returned (f_result fr, f_err fr),
   match f_err fr with
   | None => SetStatus m {| Done := true; ErrorText := "" |}
   | Some _ => m
   end).

(** [DoOneMigration] (lines 149-215).  The migration comes back with the
    status the call left in it. *)
Definition DoOneMigration (p : MySQL) (d : Database) (m : mmigration)
    : M (Outcome (option sqlResult * option error) * mmigration) :=
  r <- BeginTx ;;
  match r with
  | inr e =>
      ret (deferred_status m
             {| f_tx := 0; f_result := None;
                f_err := Some (ErrWrap e ("Begin Tx for migration "
                                          +++ MigrationName_String (BaseName (Base m))));
                f_panic := false |})
  | inl tx =>
      fr <- (early <- useSchemaOverride d m tx ;;
             match early with
             | Some e => ret {| f_tx := tx; f_result := None; f_err := Some e;
                                f_panic := false |}
             | None =>
                 a <- attempt m tx ;;
                 match a with
                 | Panicked => ret {| f_tx := tx; f_result := None; f_err := None;
                                      f_panic := true |}
                 | Returned (result, err) => recordStatus p d m tx result err
                 end
             end) ;;
      fr <- deferred_finish m fr ;;
      ret (deferred_status m fr)
  end.

(** [CreateSchemaTableIfNotExists] (lines 221-247). *)
Definition CreateSchemaTableIfNotExists (p : MySQL) (d : Database)
    : M (option error) :=
  let '(schema, tableName, err) := p_trackingSchemaTable p d in
  match err with
  | Some e => ret (Some e)
  | None =>
      err <- (if negb (String.eqb schema "") then DBExec (StCreateSchema schema)
              else ret None) ;;
      match err with
      | Some e =>
          ret (Some (ErrWrap e ("Could not create libschema schema '" +++ schema +++ "'")))
      | None =>
          err <- DBExec (StCreateTable tableName) ;;
          ret (Wrap err ("Could not create libschema migrations table '" +++ tableName +++ "'"))
      end
  end.

(** [LockMigrationsTable] (lines 324-347).  The driver object comes back as
    the call left it. *)
Definition LockMigrationsTable (p : MySQL) (d : Database)
    : M (option error * MySQL) :=
  let '(_, tableName, err) := p_trackingSchemaTable p d in
  match err with
  | Some e => ret (Some e, p)
  | None =>
      match lockTx p with
      | Some _ =>
          ret (Some (ErrNew ("libschema migrations table, '" +++ tableName +++ "' already locked")), p)
      | None =>
          r <- BeginTx ;;
          match r with
          | inr e => ret (Some (ErrWrap e "Could not start transaction: %s"), p)
          | inl tx =>
              let p := set_lockStr p ("libschema_" +++ tableName) in
              '(_, err) <- TxExec tx (StGetLock (lockStr p)) ;;
              match err with
              | Some e =>
                  ret (Some (ErrWrap e "Could not get lock for libschema migrations"), p)
              | None => ret (None, set_lockTx p (Some tx))
              end
          end
      end
  end.

(** [UnlockMigrationsTable] (lines 354-370); the deferred function rolls the
    lock transaction back and forgets it. *)
Definition UnlockMigrationsTable (p : MySQL) : M (option error * MySQL) :=
  match lockTx p with
  | None => ret (Some (ErrNew "libschema migrations table, not locked"), p)
  | Some tx =>
      '(_, err) <- TxExec tx (StReleaseLock (lockStr p)) ;;
      _ <- TxRollback tx ;;
      ret (Wrap err "Could not release explicit lock for schema migrations",
           set_lockTx p None)
  end.

(** The loop of [LoadStatus] (lines 388-402) over the rows of the result
    set.  [Some e] is the early return on a row that does not scan. *)
Fixpoint load_rows (rows : list Row) (d : Database) (unknowns : list MigrationName)
    : option error * list MigrationName * Database :=
  match rows with
  | [] => (None, unknowns, d)
  | r :: rest =>
      match scan_fault drv r with
      | Some e => (Some (ErrWrap e "Cannot scan migration status"), [], d)
      | None =>
          let name := {| Library := row_library r; Name := row_migration r |} in
          let status := {| Done := row_done r; ErrorText := "" |} in
          match Lookup d name with
          | Some _ => load_rows rest (SetStatusOf d name status) unknowns
          | None =>
              if Done status then load_rows rest d (unknowns ++ [name])
              else load_rows rest d unknowns
          end
      end
  end.

(** [LoadStatus] (lines 377-404): the unknown completed migrations, the
    error, and the database with the statuses it loaded. *)
Definition LoadStatus (p : MySQL) (d : Database)
    : M (list MigrationName * option error * Database) :=
  let tableName := trackingTable p d in
  r <- DBQuery tableName ;;
  match r with
  | inr e => ret ([], Some (ErrWrap e "Cannot query migration status"), d)
  | inl rows =>
      let '(err, unknowns, d') := load_rows rows d [] in
      ret (unknowns, err, d')
  end.

(** [IsMigrationSupported] (lines 412-424).  Every migration of the model is
    an [mmigration], so the type assertion holds. *)
Definition IsMigrationSupported (m : mmigration) : option error :=
  match script m, computed m with
  | Some _, _ => None
  | None, Some _ => None
  | None, None =>
      Some (ErrNew ("Migration " +++ MigrationName_String (BaseName (Base m))
                    +++ " is not supported"))
  end.

End Code.

(** ** Reading a trace *)

(** The rows that the [REPLACE] statements of a trace carry, in order. *)
Fixpoint status_writes (evs : list Event) : list (Tx * Row) :=
  match evs with
  | [] => []
  | EvExec (Some tx) (StReplaceStatus r) _ :: rest => (tx, r) :: status_writes rest
  | _ :: rest => status_writes rest
  end.


(** The SQL texts of migrations that a trace sent. *)
Fixpoint scripts_run (evs : list Event) : list (Tx * string) :=
  match evs with
  | [] => []
  | EvExec (Some tx) (StScript s) _ :: rest => (tx, s) :: scripts_run rest
  | _ :: rest => scripts_run rest
  end.

(** The transactions a trace asked for, opened or not. *)
Fixpoint begins (evs : list Event) : list (Tx * option error) :=
  match evs with
  | [] => []
  | EvBeginTx tx res :: rest => (tx, res) :: begins rest
  | _ :: rest => begins rest
  end.



(** ** Sample data *)

Definition sample_name_string (n : MigrationName) : string :=
  Library n +++ ": " +++ Name n.

(** A classifier that looks at the first word only. *)
Definition sample_check (s : string) : CheckResult :=
  if String.prefix "CREATE INDEX" s then NonIdempotentDDL
  else if String.prefix "ALTER" s then DataAndDDL
  else Safe.

Definition no_faults : Driver :=
  {| begin_fault := fun _ => None; exec_fault := fun _ _ => None;
     commit_fault := fun _ => None; scan_fault := fun _ => None |}.

Definition empty_world : World :=
  {| tracking := []; open_tx := []; next_tx := 0; trace := [] |}.

Definition sample_db : Database :=
  {| DbOptions := {| TrackingTable := "libschema.tracking"; SchemaOverride := "" |};
     migrations := [] |}.

Definition sample_base (n : string) : MigrationBase :=
  {| BaseName := {| Library := "lib"; Name := n |};
     Status := {| Done := false; ErrorText := "" |};
     skipIf := false |}.

(** [Computed("m1", func(...) error { return errors.New("boom") })]. *)
Definition failing_computed : mmigration :=
  {| Base := sample_base "m1"; script := None;
     computed := Some (fun _ => Some (ErrNew "boom")) |}.

(** [Script("m2", "CREATE TABLE IF NOT EXISTS t (id int)")]. *)
Definition safe_script : mmigration :=
  {| Base := sample_base "m2";
     script := Some (fun _ => "CREATE TABLE IF NOT EXISTS t (id int)");
     computed := None |}.

(** [Script("m3", "CREATE INDEX idx ON t(c)")], no skip-if. *)
Definition index_script : mmigration :=
  {| Base := sample_base "m3";
     script := Some (fun _ => "CREATE INDEX idx ON t(c)");
     computed := None |}.

(** A server that opens the first transaction and refuses the next ones. *)
Definition second_begin_fails : Driver :=
  {| begin_fault := fun tx => if Nat.eqb tx 0 then None
                              else Some (ErrNew "connection refused");
     exec_fault := fun _ _ => None;
     commit_fault := fun _ => None; scan_fault := fun _ => None |}.

(** A database whose namespace override is not an identifier. *)
Definition bad_override_db : Database :=
  {| DbOptions := {| TrackingTable := "libschema.tracking";
                     SchemaOverride := "app; DROP TABLE x" |};
     migrations := [] |}.

(** A database whose tracking-table name has three parts. *)
Definition bad_tracking_db : Database :=
  {| DbOptions := {| TrackingTable := "sch.tab.extra"; SchemaOverride := "" |};
     migrations := [] |}.

(** The world in which the first transaction is open and nothing else has
    happened. *)
Definition first_tx_open : World :=
  {| tracking := []; open_tx := [(0, [])]; next_tx := 1;
     trace := [EvBeginTx 0 None] |}.

(** The events a run added to the trace. *)
Definition new_events (w w' : World) : list Event :=
  skipn (length (trace w)) (trace w').

Definition row_name (r : Row) : MigrationName :=
  {| Library := row_library r; Name := row_migration r |}.

(** A driver object that holds the lock in transaction 0. *)
Definition locked_driver : MySQL :=
  set_lockTx (set_lockStr (New "") "libschema_libschema.tracking") (Some 0).

Definition lock_held_world : World :=
  {| tracking := []; open_tx := [(0, [])]; next_tx := 1;
     trace := [EvBeginTx 0 None; EvExec (Some 0) (StGetLock "libschema_libschema.tracking") None] |}.

Definition known (d : Database) (n : MigrationName) : bool :=
  match Lookup d n with Some _ => true | None => false end.

(** The names of the rows that are done and match no registered migration,
    in the order of the rows. *)
Definition unknown_names (d : Database) (rows : list Row) : list MigrationName :=
  map row_name (filter (fun r => row_done r && negb (known d (row_name r))) rows).

(** The done flag of the last row that carries a name. *)
Fixpoint last_status (rows : list Row) (n : MigrationName) : option bool :=
  match rows with
  | [] => None
  | r :: rest =>
      match last_status rest n with
      | Some b => Some b
      | None => if name_eqb (row_name r) n then Some (row_done r) else None
      end
  end.

Definition loaded (b : bool) (m : mmigration) : mmigration :=
  SetStatus m {| Done := b; ErrorText := "" |}.

(** A database that knows migration [m1] of [lib] and nothing else. *)
Definition one_migration_db : Database :=
  {| DbOptions := {| TrackingTable := "tracking"; SchemaOverride := "" |};
     migrations := [failing_computed] |}.

Definition sample_row (n : string) (done : bool) : Row :=
  {| row_table := "tracking"; row_library := "lib"; row_migration := n;
     row_done := done; row_error := "" |}.

(** [w'] differs from [w] by the events [evs] added to the trace and by
    nothing else. *)
Definition only_logs (w w' : World) (evs : list Event) : Prop :=
  tracking w' = tracking w /\ open_tx w' = open_tx w
  /\ next_tx w' = next_tx w /\ trace w' = trace w ++ evs.

Definition override_rejected (d : Database) : bool :=
  negb (String.eqb (SchemaOverride (DbOptions d)) "")
  && negb (simpleIdentifierRE (SchemaOverride (DbOptions d))).

(** The two supported forms of a tracking-table name. *)
Definition valid_tracking_name (n : string) : Prop :=
  simpleIdentifierRE n = true
  \/ exists s t, n = s +++ "." +++ t
                 /\ simpleIdentifierRE s = true /\ simpleIdentifierRE t = true.

Fixpoint join_dot (l : list string) : string :=
  match l with
  | [] => ""
  | [a] => a
  | a :: rest => a +++ "." +++ join_dot rest
  end.

(** ** The constructors of migrations *)

(** Modelled from the spec: a [libschema.MigrationOption] is declared in
    libschema.  [applyOpts] hands it the migration as a [libschema.Migration],
    which gives it [Base()], a pointer to the base, while [script] and
    [computed] are unexported fields of this package: an option is what it
    does to the base. *)
Definition MigrationOption : Type := MigrationBase -> MigrationBase.

Definition set_base (m : mmigration) (b : MigrationBase) : mmigration :=
  {| Base := b; script := script m; computed := computed m |}.

(** [applyOpts] (lines 137-143). *)
Definition applyOpts (m : mmigration) (opts : list MigrationOption) : mmigration :=
  fold_left (fun lsm opt => set_base lsm (opt (Base lsm))) opts m.

(** The zero [MigrationBase] with a name. *)
Definition named_base (name : string) : MigrationBase :=
  {| BaseName := {| Library := ""; Name := name |};
     Status := {| Done := false; ErrorText := "" |};
     skipIf := false |}.

(** [Generate] (lines 107-119); the generator is a Go function value, which
    may be nil. *)
Definition Generate (name : string) (generator : option (Tx -> string))
    (opts : list MigrationOption) : mmigration :=
  applyOpts {| Base := named_base name; script := generator; computed := None |} opts.

(** [Script] (lines 100-104): the generator is a closure, never nil. *)
Definition Script (name sqlText : string) (opts : list MigrationOption) : mmigration :=
  Generate name (Some (fun _ => sqlText)) opts.

(** [Computed] (lines 123-135). *)
Definition Computed (name : string) (action : option (Tx -> option error))
    (opts : list MigrationOption) : mmigration :=
  applyOpts {| Base := named_base name; script := None; computed := action |} opts.

(** ** More readings of a trace *)

(** The transactions a trace opened. *)
Fixpoint opened (evs : list Event) : list Tx :=
  match evs with
  | [] => []
  | EvBeginTx tx None :: rest => tx :: opened rest
  | _ :: rest => opened rest
  end.

(** The statements a trace sent, in order. *)
Fixpoint statements (evs : list Event) : list Statement :=
  match evs with
  | [] => []
  | EvExec _ st _ :: rest => st :: statements rest
  | _ :: rest => statements rest
  end.

(** The message an error prints first. *)
Definition outer_message (e : error) : string :=
  match e with
  | ErrNew msg => msg
  | ErrWrap _ msg => msg
  end.

(** [msg] contains [n]. *)
Definition mentions (n msg : string) : Prop :=
  exists pre post, msg = pre +++ n +++ post.

(** Letters, digits, underscores and dots only. *)
Fixpoint all_safe (s : string) : bool :=
  match s with
  | EmptyString => true
  | String c rest => (is_word c || Ascii.eqb c "."%char) && all_safe rest
  end.

(** What a migration is apart from its status. *)
Definition without_status (m : mmigration)
    : MigrationName * bool * option (Tx -> string) * option (Tx -> option error) :=
  (BaseName (Base m), skipIf (Base m), script m, computed m).

(** ** More sample data *)

(** A database with a namespace override. *)
Definition override_db : Database :=
  {| DbOptions := {| TrackingTable := "tracking"; SchemaOverride := "app" |};
     migrations := [] |}.

(** A server that refuses every namespace switch. *)
Definition use_fails : Driver :=
  {| begin_fault := fun _ => None;
     exec_fault := fun _ st => match st with
                               | StUse _ => Some (ErrNew "unknown database")
                               | _ => None
                               end;
     commit_fault := fun _ => None; scan_fault := fun _ => None |}.

(** A server that refuses every lock request. *)
Definition getlock_fails : Driver :=
  {| begin_fault := fun _ => None;
     exec_fault := fun _ st => match st with
                               | StGetLock _ => Some (ErrNew "lock wait interrupted")
                               | _ => None
                               end;
     commit_fault := fun _ => None; scan_fault := fun _ => None |}.

(** A driver that cannot scan the rows of migration [broken]. *)
Definition scan_fails : Driver :=
  {| begin_fault := fun _ => None; exec_fault := fun _ _ => None;
     commit_fault := fun _ => None;
     scan_fault := fun r => if String.eqb (row_migration r) "broken"
                            then Some (ErrNew "converting NULL to bool")
                            else None |}.

(** A server that refuses the status query. *)
Definition query_fails : Driver :=
  {| begin_fault := fun _ => None;
     exec_fault := fun _ st => match st with
                               | StSelectStatus _ => Some (ErrNew "table not found")
                               | _ => None
                               end;
     commit_fault := fun _ => None; scan_fault := fun _ => None |}.

(** A database that knows the two sample migrations. *)
Definition known_db : Database :=
  {| DbOptions := {| TrackingTable := "libschema.tracking"; SchemaOverride := "" |};
     migrations := [safe_script; failing_computed] |}.

(** A tracking table whose second row does not scan under [scan_fails]. *)
Definition broken_row_world : World :=
  {| tracking := [sample_row "m1" true; sample_row "broken" true;
                  sample_row "gone" true];
     open_tx := []; next_tx := 0; trace := [] |}.

(** A migration with neither function. *)
Definition empty_migration : mmigration :=
  {| Base := sample_base "m0"; script := None; computed := None |}.

(** * Properties *)

(** ** Identifiers and tracking-table names *)

Lemma is_word_not_dot (c : ascii) : is_word c = true -> Ascii.eqb c "."%char = false.
Proof.
  destruct (Ascii.eqb_spec c "."%char) as [->|Hn]; [|reflexivity].
  intros H. vm_compute in H. discriminate.
Qed.

Lemma simpleIdentifierRE_word (s : string) :
  simpleIdentifierRE s = true -> all_word s = true.
Proof.
  destruct s as [|c s]; simpl; [discriminate|].
  intros H. apply andb_true_iff in H as [Hc Hs].
  unfold is_word. now rewrite Hc, Hs.
Qed.

Lemma Split_dot_nonempty (s : string) : Split_dot s <> [].
Proof.
  destruct s as [|c s]; simpl; [discriminate|].
  destruct (Ascii.eqb c "."%char); [discriminate|].
  destruct (Split_dot s); discriminate.
Qed.

Lemma Split_dot_word (s : string) : all_word s = true -> Split_dot s = [s].
Proof.
  induction s as [|c s IH]; simpl; [reflexivity|].
  intros H. apply andb_true_iff in H as [Hc Hs].
  now rewrite (is_word_not_dot _ Hc), (IH Hs).
Qed.

Lemma Split_dot_word_dot (s rest : string) :
  all_word s = true -> Split_dot (s +++ "." +++ rest) = s :: Split_dot rest.
Proof.
  induction s as [|c s IH]; simpl; [reflexivity|].
  intros H. apply andb_true_iff in H as [Hc Hs].
  rewrite (is_word_not_dot _ Hc). simpl in IH. now rewrite (IH Hs).
Qed.

Lemma join_Split_dot (s : string) : join_dot (Split_dot s) = s.
Proof.
  induction s as [|c s IH]; [reflexivity|].
  simpl Split_dot.
  destruct (Ascii.eqb_spec c "."%char) as [->|Hn].
  - destruct (Split_dot s) as [|h t] eqn:E; [now elim (Split_dot_nonempty s)|].
    change (join_dot ("" :: h :: t)) with ("" +++ "." +++ join_dot (h :: t)).
    now rewrite IH.
  - destruct (Split_dot s) as [|h t] eqn:E; [now elim (Split_dot_nonempty s)|].
    rewrite <- IH. destruct t; reflexivity.
Qed.

(** The default [trackingSchemaTable] accepts the names of the two supported
    forms and no other. *)
Lemma trackingSchemaTable_valid (d : Database) :
  snd (trackingSchemaTable d) = None <-> valid_tracking_name (TrackingTable (DbOptions d)).
Proof.
  unfold trackingSchemaTable, valid_tracking_name.
  set (n := TrackingTable (DbOptions d)). split.
  - pose proof (join_Split_dot n) as Hjoin.
    destruct (Split_dot n) as [|a [|b [|c l]]]; simpl; try discriminate.
    + destruct (simpleIdentifierRE n); simpl; [auto|discriminate].
    + destruct (simpleIdentifierRE a) eqn:Ha; simpl; [|discriminate].
      destruct (simpleIdentifierRE b) eqn:Hb; simpl; [|discriminate].
      intros _. right. exists a, b. simpl in Hjoin. auto.
  - intros [Hn|(s & t & Hn & Hs & Ht)].
    + rewrite (Split_dot_word n (simpleIdentifierRE_word n Hn)), Hn. reflexivity.
    + rewrite Hn, (Split_dot_word_dot s t (simpleIdentifierRE_word s Hs)),
        (Split_dot_word t (simpleIdentifierRE_word t Ht)), Hs, Ht.
      reflexivity.
Qed.

(** The names of the spec's identifier tests. *)
Example identifiers_accepted :
  simpleIdentifierRE "my_schema" = true /\ simpleIdentifierRE "tbl2" = true
  /\ trackingSchemaTable
       {| DbOptions := {| TrackingTable := "sch.tbl"; SchemaOverride := "" |};
          migrations := [] |}
     = ("sch", "sch.tbl", None).
Proof. repeat split. Qed.

Example identifiers_rejected :
  simpleIdentifierRE "tbl; DROP TABLE x" = false
  /\ simpleIdentifierRE "1table" = false
  /\ simpleIdentifierRE "" = false
  /\ trackingSchemaTable bad_tracking_db
     = ("", "", Some (ErrNew "Tracking table 'sch.tab.extra' is not valid")).
Proof. repeat split. Qed.

#[local] Arguments String.append : simpl never.

Lemma skipn_app_exact {A : Type} (l r : list A) : skipn (length l) (l ++ r) = r.
Proof. induction l as [|a l IH]; simpl; [reflexivity | exact IH]. Qed.

Lemma pending_close_tx (tx : Tx) (o : list (Tx * list Row)) :
  pending tx (close_tx tx o) = None.
Proof.
  induction o as [|[t ws] o IH]; simpl; [reflexivity|].
  destruct (Nat.eqb t tx) eqn:E; simpl; [exact IH|].
  rewrite E. exact IH.
Qed.

(** ** The lock manager *)

(** C7.  Acquire on a driver that already holds the lock returns an error and
    leaves the driver and the database as they were (no second transaction,
    no second lock request); Release on a driver that holds no lock does the
    same; and a successful Acquire starts from a driver that held none and
    leaves exactly one handle. *)
Theorem lock_state_errors (drv : Driver) (p : MySQL) (d : Database) (w : World) :
  (forall tx, lockTx p = Some tx ->
     exists e, LockMigrationsTable drv p d w = (Some e, p, w))
  /\ (lockTx p = None ->
      UnlockMigrationsTable drv p w
      = (Some (ErrNew "libschema migrations table, not locked"), p, w))
  /\ (forall p' w', LockMigrationsTable drv p d w = (None, p', w') ->
      lockTx p = None /\ lockTx p' = Some (next_tx w)).
Proof.
  unfold LockMigrationsTable, UnlockMigrationsTable, ret, bind.
  destruct (p_trackingSchemaTable p d) as [[schema tableName] [cfg|]].
  - repeat split.
    + intros tx _. exists cfg. reflexivity.
    + intros ->. reflexivity.
    + discriminate.
    + discriminate.
  - destruct (lockTx p) as [held|] eqn:Hheld.
    + repeat split; try discriminate.
      intros tx _. eexists. reflexivity.
    + repeat split; try discriminate.
      * unfold BeginTx, TxExec, log in H.
        destruct (begin_fault drv (next_tx w)); [discriminate|].
        simpl in H. rewrite Nat.eqb_refl in H.
        destruct (exec_fault drv _ _); [discriminate|].
        injection H as <- _. reflexivity.
Qed.

Lemma lock_state_errors_witness :
  (exists e, LockMigrationsTable no_faults locked_driver sample_db lock_held_world
             = (Some e, locked_driver, lock_held_world))
  /\ UnlockMigrationsTable no_faults (New "") empty_world
     = (Some (ErrNew "libschema migrations table, not locked"), New "", empty_world)
  /\ (lockTx (New "") = None /\ lockTx locked_driver = Some (next_tx empty_world)).
Proof.
  split; [|split].
  - exact (proj1 (lock_state_errors no_faults locked_driver sample_db lock_held_world)
             0 eq_refl).
  - exact (proj1 (proj2 (lock_state_errors no_faults (New "") sample_db empty_world))
             eq_refl).
  - exact (proj2 (proj2 (lock_state_errors no_faults (New "") sample_db empty_world))
             locked_driver lock_held_world eq_refl).
Defined.

(** C8.  Release on a driver that holds the lock sends the release call and
    then rolls the lock transaction back and forgets it, whatever the release
    call answered: afterwards the driver holds no lock and the transaction is
    closed. *)
Theorem unlock_discards_session (drv : Driver) (p : MySQL) (w : World) (tx : Tx) :
  lockTx p = Some tx ->
  exists r p' w',
    UnlockMigrationsTable drv p w
    = (Wrap r "Could not release explicit lock for schema migrations", p', w')
    /\ lockTx p' = None
    /\ pending tx (open_tx w') = None
    /\ new_events w w' = [EvExec (Some tx) (StReleaseLock (lockStr p)) r; EvRollback tx].
Proof.
  intros Hheld. unfold UnlockMigrationsTable, bind, ret, TxExec, TxRollback, log.
  rewrite Hheld.
  destruct (pending tx (open_tx w)) as [ws|] eqn:Hopen;
    [destruct (exec_fault drv (Some tx) (StReleaseLock (lockStr p))) as [e|] eqn:Hrel|];
    simpl;
    match goal with
    | |- context [EvExec (Some tx) (StReleaseLock (lockStr p)) ?r] =>
        exists r
    end;
    eexists; eexists; (split; [reflexivity|]);
    simpl; rewrite pending_close_tx;
    unfold new_events; simpl; rewrite <- app_assoc, skipn_app_exact;
    repeat split.
Qed.

Lemma unlock_discards_session_witness :
  exists r p' w',
    UnlockMigrationsTable no_faults locked_driver lock_held_world
    = (Wrap r "Could not release explicit lock for schema migrations", p', w')
    /\ lockTx p' = None
    /\ pending 0 (open_tx w') = None
    /\ new_events lock_held_world w'
       = [EvExec (Some 0) (StReleaseLock (lockStr locked_driver)) r; EvRollback 0].
Proof.
  exact (unlock_discards_session no_faults locked_driver lock_held_world 0 eq_refl).
Defined.

(** ** Loading the statuses *)

Lemma name_eqb_refl (n : MigrationName) : name_eqb n n = true.
Proof. unfold name_eqb. now rewrite !String.eqb_refl. Qed.

Lemma name_eqb_true (a b : MigrationName) : name_eqb a b = true -> a = b.
Proof.
  destruct a as [la na], b as [lb nb]. unfold name_eqb. simpl.
  intros H. apply andb_true_iff in H as [Hl Hn].
  apply String.eqb_eq in Hl, Hn. now subst.
Qed.

Lemma Lookup_SetStatusOf (d : Database) (n n' : MigrationName) (s : MigrationStatus) :
  Lookup (SetStatusOf d n s) n'
  = if name_eqb n n' then option_map (fun m => SetStatus m s) (Lookup d n')
    else Lookup d n'.
Proof.
  unfold Lookup, SetStatusOf. simpl.
  induction (migrations d) as [|m ms IH]; simpl.
  - now destruct (name_eqb n n').
  - destruct (name_eqb (BaseName (Base m)) n) eqn:Hmn; simpl.
    + apply name_eqb_true in Hmn. subst n.
      destruct (name_eqb (BaseName (Base m)) n') eqn:Hmn'; [reflexivity|].
      reflexivity.
    + destruct (name_eqb (BaseName (Base m)) n') eqn:Hmn'.
      * destruct (name_eqb n n') eqn:Hnn'; [|reflexivity].
        apply name_eqb_true in Hnn'. subst n'. congruence.
      * exact IH.
Qed.

Lemma known_SetStatusOf (d : Database) (n n' : MigrationName) (s : MigrationStatus) :
  known (SetStatusOf d n s) n' = known d n'.
Proof.
  unfold known. rewrite Lookup_SetStatusOf.
  destruct (name_eqb n n'); destruct (Lookup d n'); reflexivity.
Qed.

Lemma unknown_names_SetStatusOf (d : Database) (n : MigrationName)
    (s : MigrationStatus) (rows : list Row) :
  unknown_names (SetStatusOf d n s) rows = unknown_names d rows.
Proof.
  unfold unknown_names. f_equal. apply filter_ext. intros r.
  now rewrite known_SetStatusOf.
Qed.

(** What the loop leaves when every row scans: the unknown done names are
    appended in row order, and every registered migration carries the done
    flag of the last row with its name. *)
Lemma load_rows_spec (drv : Driver) (rows : list Row) :
  forall (d : Database) (u : list MigrationName),
    (forall r, In r rows -> scan_fault drv r = None) ->
    exists d',
      load_rows drv rows d u = (None, u ++ unknown_names d rows, d')
      /\ forall n, Lookup d' n
                   = match last_status rows n with
                     | Some b => option_map (loaded b) (Lookup d n)
                     | None => Lookup d n
                     end.
Proof.
  induction rows as [|r rest IH]; intros d u Hscan.
  - exists d. simpl. rewrite app_nil_r. split; reflexivity.
  - simpl. rewrite (Hscan r (or_introl eq_refl)).
    assert (Hrest : forall x, In x rest -> scan_fault drv x = None)
      by (intros x Hx; apply Hscan; now right).
    fold (row_name r).
    destruct (Lookup d (row_name r)) as [m0|] eqn:Hlook.
    + destruct (IH (SetStatusOf d (row_name r) {| Done := row_done r; ErrorText := "" |}) u Hrest)
        as (d' & Hrun & Hst).
      exists d'. split.
      * rewrite Hrun, unknown_names_SetStatusOf.
        unfold unknown_names at 2. simpl.
        assert (Hk : known d (row_name r) = true) by (unfold known; now rewrite Hlook).
        rewrite Hk, andb_false_r. reflexivity.
      * intros n. rewrite Hst, Lookup_SetStatusOf.
        destruct (last_status rest n) as [b|];
          destruct (name_eqb (row_name r) n); destruct (Lookup d n); reflexivity.
    + assert (Hstep : forall n,
                 match last_status rest n with
                 | Some b => option_map (loaded b) (Lookup d n)
                 | None => Lookup d n
                 end
                 = match match last_status rest n with
                         | Some b => Some b
                         | None => if name_eqb (row_name r) n then Some (row_done r) else None
                         end with
                   | Some b => option_map (loaded b) (Lookup d n)
                   | None => Lookup d n
                   end).
      { intros n. destruct (last_status rest n); [reflexivity|].
        destruct (name_eqb (row_name r) n) eqn:E; [|reflexivity].
        apply name_eqb_true in E. subst n. now rewrite Hlook. }
      assert (Hk : known d (row_name r) = false) by (unfold known; now rewrite Hlook).
      unfold unknown_names. simpl. rewrite Hk, andb_true_r.
      destruct (row_done r); simpl.
      * destruct (IH d (u ++ [row_name r]) Hrest) as (d' & Hrun & Hst).
        exists d'. split.
        -- rewrite Hrun. unfold unknown_names. now rewrite <- app_assoc.
        -- intros n. rewrite Hst. apply Hstep.
      * destruct (IH d u Hrest) as (d' & Hrun & Hst).
        exists d'. split; [exact Hrun|].
        intros n. rewrite Hst. apply Hstep.
Qed.

Lemma last_status_absent (rows : list Row) (n : MigrationName) :
  ~ In n (map row_name rows) -> last_status rows n = None.
Proof.
  induction rows as [|r rest IH]; simpl; intros Hn; [reflexivity|].
  rewrite IH by tauto.
  destruct (name_eqb (row_name r) n) eqn:E; [|reflexivity].
  apply name_eqb_true in E. tauto.
Qed.

Lemma last_status_unique (rows : list Row) (r : Row) :
  NoDup (map row_name rows) -> In r rows ->
  last_status rows (row_name r) = Some (row_done r).
Proof.
  induction rows as [|r0 rest IH]; simpl; intros Hnd Hin; [contradiction|].
  inversion Hnd as [|x l Hnot Hnd']; subst.
  destruct Hin as [->|Hin].
  - rewrite last_status_absent by exact Hnot. now rewrite name_eqb_refl.
  - now rewrite IH.
Qed.

(** C9.  When the status query and every row scan go through, [LoadStatus]
    returns no error; it returns the names of exactly the rows that are done
    and match no registered migration; and every row that matches a
    registered migration leaves its done flag in that migration's status
    (the rows of a tracking table have distinct primary keys). *)
Theorem LoadStatus_applies_known_collects_unknown
    (drv : Driver) (p : MySQL) (d : Database) (w : World) :
  let rows := filter (fun r => String.eqb (row_table r) (trackingTable p d)) (tracking w) in
  exec_fault drv None (StSelectStatus (trackingTable p d)) = None ->
  (forall r, In r rows -> scan_fault drv r = None) ->
  NoDup (map row_name rows) ->
  exists d' w',
    LoadStatus drv p d w = (unknown_names d rows, None, d', w')
    /\ (forall r m, In r rows -> Lookup d (row_name r) = Some m ->
          Lookup d' (row_name r)
          = Some (SetStatus m {| Done := row_done r; ErrorText := "" |}))
    /\ (forall r, In r rows -> row_done r = true -> Lookup d (row_name r) = None ->
          In (row_name r) (unknown_names d rows)).
Proof.
  intros rows Hquery Hscan Hkeys.
  destruct (load_rows_spec drv rows d [] Hscan) as (d' & Hrun & Hst).
  exists d'. unfold LoadStatus, DBQuery, bind, ret. rewrite Hquery.
  fold rows. rewrite Hrun. simpl. eexists. split; [reflexivity|]. split.
  - intros r m Hin Hlook.
    rewrite Hst, (last_status_unique rows r Hkeys Hin), Hlook. reflexivity.
  - intros r Hin Hdone Hlook. unfold unknown_names.
    apply in_map, filter_In. split; [exact Hin|].
    unfold known. now rewrite Hdone, Hlook.
Qed.

Lemma LoadStatus_applies_known_collects_unknown_witness :
  let w := {| tracking := [sample_row "m1" true; sample_row "gone" true;
                           sample_row "draft" false];
              open_tx := []; next_tx := 0; trace := [] |} in
  let rows := tracking w in
  exists d' w',
    LoadStatus no_faults (New "") one_migration_db w
    = ([{| Library := "lib"; Name := "gone" |}], None, d', w')
    /\ (forall r m, In r rows -> Lookup one_migration_db (row_name r) = Some m ->
          Lookup d' (row_name r)
          = Some (SetStatus m {| Done := row_done r; ErrorText := "" |}))
    /\ (forall r, In r rows -> row_done r = true ->
          Lookup one_migration_db (row_name r) = None ->
          In (row_name r) [{| Library := "lib"; Name := "gone" |}]).
Proof.
  intros w rows.
  apply (LoadStatus_applies_known_collects_unknown no_faults (New "")
           one_migration_db w).
  - reflexivity.
  - intros r _. reflexivity.
  - simpl. repeat constructor; simpl; intuition discriminate.
Defined.

Lemma load_rows_skip (drv : Driver) (r0 : Row) (l1 l2 : list Row) :
  row_done r0 = false -> scan_fault drv r0 = None ->
  forall (d : Database) (u : list MigrationName),
    Lookup d (row_name r0) = None ->
    load_rows drv (l1 ++ r0 :: l2) d u = load_rows drv (l1 ++ l2) d u.
Proof.
  intros Hdone Hscan.
  induction l1 as [|r l1 IH]; intros d u Hlook; simpl.
  - rewrite Hscan. fold (row_name r0). now rewrite Hlook, Hdone.
  - destruct (scan_fault drv r); [reflexivity|].
    fold (row_name r).
    destruct (Lookup d (row_name r)) eqn:Hr.
    + apply IH. rewrite Lookup_SetStatusOf, Hlook.
      now destruct (name_eqb (row_name r) (row_name r0)).
    + destruct (row_done r); now apply IH.
Qed.

(** C10.  A row that is not done and matches no registered migration changes
    nothing: [LoadStatus] returns the same unknown list, the same error and
    the same statuses as it does on the table without that row. *)
Theorem LoadStatus_ignores_unknown_not_done
    (drv : Driver) (p : MySQL) (d : Database) (r0 : Row) (t1 t2 : list Row)
    (o : list (Tx * list Row)) (n : nat) (tr : list Event) :
  Lookup d (row_name r0) = None ->
  row_done r0 = false ->
  scan_fault drv r0 = None ->
  fst (LoadStatus drv p d {| tracking := t1 ++ r0 :: t2; open_tx := o;
                             next_tx := n; trace := tr |})
  = fst (LoadStatus drv p d {| tracking := t1 ++ t2; open_tx := o;
                               next_tx := n; trace := tr |}).
Proof.
  intros Hlook Hdone Hscan.
  unfold LoadStatus, DBQuery, bind, ret. simpl.
  destruct (exec_fault drv None (StSelectStatus (trackingTable p d))); [reflexivity|].
  rewrite !filter_app. simpl.
  destruct (String.eqb (row_table r0) (trackingTable p d));
    [rewrite (load_rows_skip drv r0 _ _ Hdone Hscan d [] Hlook)|];
    destruct (load_rows drv _ d []) as [[err unknowns] d']; reflexivity.
Qed.

Lemma LoadStatus_ignores_unknown_not_done_witness :
  fst (LoadStatus no_faults (New "") one_migration_db
         {| tracking := [sample_row "m1" true] ++ sample_row "draft" false
                        :: [sample_row "gone" true];
            open_tx := []; next_tx := 0; trace := [] |})
  = fst (LoadStatus no_faults (New "") one_migration_db
           {| tracking := [sample_row "m1" true] ++ [sample_row "gone" true];
              open_tx := []; next_tx := 0; trace := [] |}).
Proof.
  apply (LoadStatus_ignores_unknown_not_done no_faults (New "") one_migration_db
           (sample_row "draft" false)); reflexivity.
Defined.

(** ** Traces *)

Lemma new_events_app (w w' : World) (evs : list Event) :
  trace w' = trace w ++ evs -> new_events w w' = evs.
Proof. unfold new_events. intros ->. apply skipn_app_exact. Qed.

Lemma status_writes_app (a b : list Event) :
  status_writes (a ++ b) = status_writes a ++ status_writes b.
Proof.
  induction a as [|ev a IH]; simpl; [reflexivity|].
  destruct ev as [t r|[t|] st r|t r|t]; try exact IH;
    destruct st; simpl; rewrite ?IH; reflexivity.
Qed.

Lemma scripts_run_app (a b : list Event) :
  scripts_run (a ++ b) = scripts_run a ++ scripts_run b.
Proof.
  induction a as [|ev a IH]; simpl; [reflexivity|].
  destruct ev as [t r|[t|] st r|t r|t]; try exact IH;
    destruct st; simpl; rewrite ?IH; reflexivity.
Qed.

Lemma begins_app (a b : list Event) : begins (a ++ b) = begins a ++ begins b.
Proof.
  induction a as [|ev a IH]; simpl; [reflexivity|].
  destruct ev; simpl; rewrite ?IH; reflexivity.
Qed.

(** ** The phases of [DoOneMigration] *)

Section Migration.

Variable CheckScript : string -> CheckResult.
Variable MigrationName_String : MigrationName -> string.
Variable drv : Driver.

Lemma BeginTx_opened (w w1 : World) (tx : Tx) :
  BeginTx drv w = (inl tx, w1) ->
  tx = next_tx w
  /\ w1 = {| tracking := tracking w; open_tx := (tx, []) :: open_tx w;
             next_tx := S tx; trace := trace w ++ [EvBeginTx tx None] |}.
Proof.
  unfold BeginTx. destruct (begin_fault drv (next_tx w)); intros H.
  - discriminate.
  - injection H as <- <-. split; reflexivity.
Qed.

Lemma TxExec_logs (tx : Tx) (st : Statement) (w w' : World)
    (r : option sqlResult * option error) :
  (forall row, st <> StReplaceStatus row) ->
  TxExec drv tx st w = (r, w') ->
  only_logs w w' [EvExec (Some tx) st (snd r)].
Proof.
  intros Hst H. unfold TxExec, log in H.
  assert (Happ : apply_stmt tx st w = w)
    by (destruct st; try reflexivity; exfalso; eapply Hst; reflexivity).
  rewrite Happ in H.
  destruct (pending tx (open_tx w));
    [destruct (exec_fault drv (Some tx) st)|];
    injection H as <- <-; unfold only_logs; simpl; auto.
Qed.

Lemma useSchemaOverride_logs (d : Database) (m : mmigration) (tx : Tx)
    (w w' : World) (r : option error) :
  useSchemaOverride MigrationName_String drv d m tx w = (r, w') ->
  exists evs, only_logs w w' evs
    /\ (evs = [] \/ exists res, evs = [EvExec (Some tx) (StUse (SchemaOverride (DbOptions d))) res]).
Proof.
  unfold useSchemaOverride, bind, ret.
  destruct (String.eqb (SchemaOverride (DbOptions d)) "").
  - intros H. injection H as <- <-. exists []. unfold only_logs.
    rewrite app_nil_r. auto.
  - destruct (negb (simpleIdentifierRE (SchemaOverride (DbOptions d)))).
    + intros H. injection H as <- <-. exists []. unfold only_logs.
      rewrite app_nil_r. auto.
    + destruct (TxExec drv tx (StUse (SchemaOverride (DbOptions d))) w)
        as [[res err] w2] eqn:Hexec.
      intros H. injection H as <- <-.
      apply TxExec_logs in Hexec; [|discriminate].
      eexists. split; [exact Hexec|]. right. eexists. reflexivity.
Qed.

Lemma attempt_logs (m : mmigration) (tx : Tx) (w w' : World)
    (a : Outcome (option sqlResult * option error)) :
  attempt CheckScript drv m tx w = (a, w') ->
  exists evs, only_logs w w' evs
    /\ (evs = [] \/ exists s res, evs = [EvExec (Some tx) (StScript s) res]).
Proof.
  unfold attempt, bind, ret.
  assert (Hnone : only_logs w w []) by (unfold only_logs; rewrite app_nil_r; auto).
  destruct (script m) as [generator|].
  - destruct (CheckScript (generator tx)); [| |destruct (negb (HasSkipIf (Base m)))];
      try (intros H; injection H as <- <-; exists []; auto);
      destruct (TxExec drv tx (StScript (generator tx)) w) as [[res err] w2] eqn:Hexec;
      intros H; injection H as <- <-;
      (apply TxExec_logs in Hexec; [|discriminate]);
      eexists; (split; [exact Hexec|]); right; eauto.
  - destruct (computed m); intros H; injection H as <- <-; exists []; auto.
Qed.

(** The world in which the attempt has returned: the first transaction is
    open with nothing pending, and the trace holds its begin and at most a
    namespace switch and a script. *)
Lemma attempt_reached (d : Database) (m : mmigration) (w w1 w2 w3 : World)
    (tx : Tx) (a : Outcome (option sqlResult * option error)) :
  BeginTx drv w = (inl tx, w1) ->
  useSchemaOverride MigrationName_String drv d m tx w1 = (None, w2) ->
  attempt CheckScript drv m tx w2 = (a, w3) ->
  exists evs,
    tx = next_tx w
    /\ w3 = {| tracking := tracking w; open_tx := (tx, []) :: open_tx w;
               next_tx := S tx; trace := trace w ++ EvBeginTx tx None :: evs |}
    /\ status_writes evs = [] /\ begins evs = []
    /\ scripts_run evs = scripts_run (new_events w2 w3).
Proof.
  intros Hb Hu Ha.
  apply BeginTx_opened in Hb as [-> ->].
  apply useSchemaOverride_logs in Hu as (e2 & (Ht2 & Ho2 & Hn2 & Htr2) & He2).
  apply attempt_logs in Ha as (e3 & (Ht3 & Ho3 & Hn3 & Htr3) & He3).
  simpl in *. exists (e2 ++ e3).
  split; [reflexivity|]. split.
  - destruct w3 as [t3 o3 n3 tr3]. simpl in *. subst.
    rewrite Ht2, Ho2, Hn2, Htr2, <- !app_assoc. reflexivity.
  - unfold new_events. rewrite Htr3, skipn_app_exact.
    destruct He2 as [->|[res ->]]; destruct He3 as [->|(s & res3 & ->)];
      repeat split.
Qed.

Lemma DoOneMigration_phases (p : MySQL) (d : Database) (m : mmigration)
    (w w1 w2 w3 : World) (tx : Tx) (result : option sqlResult) (err : option error) :
  BeginTx drv w = (inl tx, w1) ->
  useSchemaOverride MigrationName_String drv d m tx w1 = (None, w2) ->
  attempt CheckScript drv m tx w2 = (Returned (result, err), w3) ->
  DoOneMigration CheckScript MigrationName_String drv p d m w
  = (let (fr, w4) := recordStatus MigrationName_String drv p d m tx result err w3 in
     let (fr', w5) := deferred_finish MigrationName_String drv m fr w4 in
     (deferred_status m fr', w5)).
Proof.
  intros Hb Hu Ha. unfold DoOneMigration, bind, ret.
  rewrite Hb, Hu, Ha. reflexivity.
Qed.

Ltac events_since :=
  repeat (erewrite new_events_app
            by (simpl; repeat rewrite <- app_assoc; simpl; reflexivity)).

(** C6.  When the attempt has failed with [e] and the second transaction
    cannot be opened because of [te], [DoOneMigration] returns one error that
    wraps the migration error with a message quoting [te]; nothing is written
    to the tracking table, in any transaction. *)
Theorem second_begin_failure_reports_both
    (p : MySQL) (d : Database) (m : mmigration) (w w1 w2 w3 : World) (tx : Tx)
    (result : option sqlResult) (e te : error) :
  BeginTx drv w = (inl tx, w1) ->
  useSchemaOverride MigrationName_String drv d m tx w1 = (None, w2) ->
  attempt CheckScript drv m tx w2 = (Returned (result, Some e), w3) ->
  begin_fault drv (next_tx w3) = Some te ->
  let name := MigrationName_String (BaseName (Base m)) in
  let merr := ErrWrap e ("Problem with migration " +++ name) in
  let both := ErrWrap merr ("Tx for saving status for " +++ name
                            +++ " also failed with " +++ Error te) in
  exists w',
    DoOneMigration CheckScript MigrationName_String drv p d m w
    = (Returned (None, Some both), m, w')
    /\ Error both = ("Tx for saving status for " +++ name +++ " also failed with "
                     +++ Error te) +++ ": " +++ Error merr
    /\ new_events w3 w' = [EvRollback tx; EvBeginTx (next_tx w3) (Some te); EvRollback tx]
    /\ status_writes (new_events w w') = []
    /\ tracking w' = tracking w.
Proof.
  intros Hb Hu Ha Hte name merr both.
  destruct (attempt_reached d m w w1 w2 w3 tx _ Hb Hu Ha)
    as (evs & -> & -> & Hsw & _ & _).
  rewrite (DoOneMigration_phases p d m w w1 w2 _ _ _ _ Hb Hu Ha).
  simpl in Hte.
  unfold recordStatus, deferred_finish, deferred_status, bind, ret, TxRollback, BeginTx.
  simpl. rewrite Hte. simpl.
  eexists. split; [reflexivity|]. split; [reflexivity|]. split; [|split].
  - events_since. reflexivity.
  - events_since. simpl. rewrite status_writes_app, Hsw. reflexivity.
  - reflexivity.
Qed.

Ltac split_inner :=
  match goal with
  | |- context [match ?x with _ => _ end] =>
      lazymatch x with
      | context [match _ with _ => _ end] => fail
      | _ => destruct x eqn:?
      end
  end.

Ltac run_tail :=
  unfold recordStatus, saveStatus, deferred_finish, deferred_status, bind, ret,
    TxRollback, TxCommit, TxExec, BeginTx, log, apply_stmt;
  repeat (repeat (progress (simpl; rewrite ?Nat.eqb_refl)); try split_inner).

(** C4.  Once the transaction is open and the namespace switch is through, a
    script classified [DataAndDDL] is rejected whatever the migration
    declares, a script classified [NonIdempotentDDL] is rejected exactly when
    the migration declares no skip-if, and every other script is sent once,
    in the migration's transaction.  A rejected script is never sent, and the
    error returned has the policy error as its cause. *)
Theorem script_policy
    (p : MySQL) (d : Database) (m : mmigration) (w w1 w2 : World) (tx : Tx)
    (generator : Tx -> string) :
  script m = Some generator ->
  BeginTx drv w = (inl tx, w1) ->
  useSchemaOverride MigrationName_String drv d m tx w1 = (None, w2) ->
  exists out m' w',
    DoOneMigration CheckScript MigrationName_String drv p d m w = (out, m', w')
    /\ match CheckScript (generator tx), HasSkipIf (Base m) with
       | DataAndDDL, _ =>
           scripts_run (new_events w w') = []
           /\ exists e, out = Returned (None, Some e)
                /\ Cause e = ErrNew "Migration combines DDL (Data Definition Language [schema changes]) and data manipulation"
       | NonIdempotentDDL, false =>
           scripts_run (new_events w w') = []
           /\ exists e, out = Returned (None, Some e)
                /\ Cause e = ErrNew "Unconditional migration has non-idempotent DDL (Data Definition Language [schema changes])"
       | _, _ => scripts_run (new_events w w') = [(tx, generator tx)]
       end.
Proof.
  intros Hscript Hb Hu.
  destruct (attempt CheckScript drv m tx w2) as [a w3] eqn:Ha.
  destruct (attempt_reached d m w w1 w2 w3 tx _ Hb Hu Ha)
    as (evs & Htx & Hw3 & _ & _ & Hsr).
  assert (Hcase :
    exists result err, a = Returned (result, err) /\
    match CheckScript (generator tx), HasSkipIf (Base m) with
    | DataAndDDL, _ =>
        scripts_run evs = [] /\ result = None
        /\ exists e, err = Some e
             /\ Cause e = ErrNew "Migration combines DDL (Data Definition Language [schema changes]) and data manipulation"
    | NonIdempotentDDL, false =>
        scripts_run evs = [] /\ result = None
        /\ exists e, err = Some e
             /\ Cause e = ErrNew "Unconditional migration has non-idempotent DDL (Data Definition Language [schema changes])"
    | _, _ => scripts_run evs = [(tx, generator tx)]
    end).
  { rewrite Hsr. clear Hsr Hw3. unfold attempt, bind, ret in Ha. rewrite Hscript in Ha.
    unfold HasSkipIf in *.
    destruct (CheckScript (generator tx)); destruct (skipIf (Base m)); simpl in Ha;
      first
        [ injection Ha as <- <-; do 2 eexists; (split; [reflexivity|]);
          rewrite (new_events_app w2 w2 []) by (now rewrite app_nil_r);
          split; [reflexivity|]; split; [reflexivity|]; eexists; split; reflexivity
        | destruct (TxExec drv tx (StScript (generator tx)) w2) as [[res err] w2'] eqn:Hexec;
          injection Ha as <- <-; do 2 eexists; (split; [reflexivity|]);
          (apply TxExec_logs in Hexec; [|discriminate]);
          destruct Hexec as (_ & _ & _ & Htr);
          rewrite (new_events_app _ _ _ Htr); reflexivity ]. }
  destruct Hcase as (result & err & -> & Hcase).
  rewrite (DoOneMigration_phases p d m w w1 w2 _ _ _ _ Hb Hu Ha).
  subst w3 tx. clear Hsr Ha Hb Hu.
  unfold HasSkipIf in *.
  destruct (CheckScript (generator (next_tx w))); destruct (skipIf (Base m));
    try destruct Hcase as (Hcase & -> & e0 & -> & Hcause);
    try (destruct err as [?|]); run_tail.
  all: do 3 eexists; (split; [reflexivity|]).
  all: events_since; simpl; rewrite scripts_run_app, Hcase; simpl.
  all: try reflexivity.
  all: split; [reflexivity|]; eexists; split; [reflexivity|]; simpl; exact Hcause.
Qed.

(** C3 as the code has it.  Once the attempt has returned: if it succeeded,
    the row (done, empty error) is written in the migration's own
    transaction, no other transaction is opened, and the row reaches the
    tracking table exactly when the write and the commit both go through; if
    it failed, the migration's transaction is rolled back and a second one is
    asked for, and when that one opens the row (not done, the error's text)
    is written in it. *)
Theorem status_write_transaction
    (p : MySQL) (d : Database) (m : mmigration) (w w1 w2 w3 : World) (tx : Tx)
    (result : option sqlResult) (err : option error) :
  BeginTx drv w = (inl tx, w1) ->
  useSchemaOverride MigrationName_String drv d m tx w1 = (None, w2) ->
  attempt CheckScript drv m tx w2 = (Returned (result, err), w3) ->
  exists out m' w',
    DoOneMigration CheckScript MigrationName_String drv p d m w = (out, m', w')
    /\ match err with
       | None =>
           let row := status_row p d m true "" in
           let saved := exec_fault drv (Some tx) (StReplaceStatus row) in
           new_events w3 w'
           = [EvExec (Some tx) (StReplaceStatus row) saved;
              match saved with
              | None => EvCommit tx (commit_fault drv tx)
              | Some _ => EvRollback tx
              end]
           /\ tracking w'
              = match saved, commit_fault drv tx with
                | None, None => replace_row (tracking w) row
                | _, _ => tracking w
                end
       | Some e =>
           let merr := ErrWrap e ("Problem with migration "
                                  +++ MigrationName_String (BaseName (Base m))) in
           let ntx := next_tx w3 in
           match begin_fault drv ntx with
           | None =>
               ntx <> tx
               /\ exists saved rest,
                    new_events w3 w'
                    = EvRollback tx :: EvBeginTx ntx None
                      :: EvExec (Some ntx)
                           (StReplaceStatus (status_row p d m false (Error merr))) saved
                      :: rest
           | Some te =>
               new_events w3 w'
               = [EvRollback tx; EvBeginTx ntx (Some te); EvRollback tx]
           end
       end.
Proof.
  intros Hb Hu Ha.
  destruct (attempt_reached d m w w1 w2 w3 tx _ Hb Hu Ha)
    as (evs & -> & -> & _ & _ & _).
  rewrite (DoOneMigration_phases p d m w w1 w2 _ _ _ _ Hb Hu Ha).
  clear Hb Hu Ha. destruct err as [e|]; run_tail.
  all: do 3 eexists; (split; [reflexivity|]); events_since.
  all: try (split; reflexivity).
  all: try reflexivity.
  all: split; [apply Nat.neq_succ_diag_l|]; do 2 eexists; reflexivity.
Qed.

(** The defect behind C1, for every failed attempt: the transaction that
    carries the failure row is never committed.  The tracking table is left
    as it was, the migration's in-memory status is untouched, and the error
    returned has the attempt's error at its root. *)
Lemma failed_attempt_commits_nothing
    (p : MySQL) (d : Database) (m : mmigration) (w w1 w2 w3 : World) (tx : Tx)
    (result : option sqlResult) (e : error) :
  BeginTx drv w = (inl tx, w1) ->
  useSchemaOverride MigrationName_String drv d m tx w1 = (None, w2) ->
  attempt CheckScript drv m tx w2 = (Returned (result, Some e), w3) ->
  exists e' w',
    DoOneMigration CheckScript MigrationName_String drv p d m w
    = (Returned (match begin_fault drv (next_tx w3) with
                 | None => result
                 | Some _ => None
                 end, Some e'), m, w')
    /\ Cause e' = Cause e
    /\ tracking w' = tracking w.
Proof.
  intros Hb Hu Ha.
  destruct (attempt_reached d m w w1 w2 w3 tx _ Hb Hu Ha)
    as (evs & -> & -> & _ & _ & _).
  rewrite (DoOneMigration_phases p d m w w1 w2 _ _ _ _ Hb Hu Ha).
  clear Hb Hu Ha. run_tail.
  all: do 2 eexists; (split; [reflexivity|]); repeat split.
Qed.


(** C5 as the code has it.  A tracking-table name that [trackingSchemaTable]
    refuses is reported by [LockMigrationsTable] and by
    [CreateSchemaTableIfNotExists] before they call the database at all; the
    default [trackingSchemaTable] refuses exactly the names that are neither
    [table] nor [schema.table] with identifiers for parts; and a namespace
    override that is not an identifier is reported by [DoOneMigration] after
    its transaction is begun and before any statement is sent, the
    transaction being rolled back. *)
Theorem configuration_errors_surface
    (p : MySQL) (d : Database) (m : mmigration) (w : World) :
  (forall s t e, p_trackingSchemaTable p d = (s, t, Some e) ->
     LockMigrationsTable drv p d w = (Some e, p, w)
     /\ CreateSchemaTableIfNotExists drv p d w = (Some e, w))
  /\ (snd (trackingSchemaTable d) = None
      <-> valid_tracking_name (TrackingTable (DbOptions d)))
  /\ (override_rejected d = true ->
      begin_fault drv (next_tx w) = None ->
      exists w',
        DoOneMigration CheckScript MigrationName_String drv p d m w
        = (Returned (None,
                     Some (ErrNew ("Options.SchemaOverride must be a simple identifier, not '"
                                   +++ SchemaOverride (DbOptions d) +++ "'"))), m, w')
        /\ new_events w w' = [EvBeginTx (next_tx w) None; EvRollback (next_tx w)]
        /\ tracking w' = tracking w).
Proof.
  split; [|split].
  - intros s t e Hcfg. unfold LockMigrationsTable, CreateSchemaTableIfNotExists, ret.
    rewrite Hcfg. split; reflexivity.
  - apply trackingSchemaTable_valid.
  - unfold override_rejected. intros Hrej Hbegin.
    apply andb_true_iff in Hrej as [Hne Hid].
    apply negb_true_iff in Hne.
    unfold DoOneMigration, useSchemaOverride, bind, ret, BeginTx, TxRollback,
      deferred_finish, deferred_status.
    rewrite Hbegin. simpl. rewrite Hne, Hid. simpl.
    eexists. split; [reflexivity|]. split; [|reflexivity].
    events_since. reflexivity.
Qed.

End Migration.

(** ** The executor on sample migrations *)

(** C1, as the code runs it.  A computed migration fails with [boom] and
    every database call goes through: the error comes back wrapped with the
    migration's name and the in-memory status is untouched, but the row
    (not done, the error's text) is written in transaction 1 and transaction
    1 is then rolled back, so the tracking table has no row for the
    migration. *)
Theorem failed_attempt_row_rolled_back :
  DoOneMigration sample_check sample_name_string no_faults (New "") sample_db
    failing_computed empty_world
  = (Returned (None, Some (ErrWrap (ErrNew "boom") "Problem with migration lib: m1")),
     failing_computed,
     {| tracking := [];
        open_tx := [];
        next_tx := 2;
        trace := [EvBeginTx 0 None; EvRollback 0; EvBeginTx 1 None;
                  EvExec (Some 1)
                    (StReplaceStatus
                       {| row_table := "libschema.tracking";
                          row_library := "lib"; row_migration := "m1";
                          row_done := false;
                          row_error := "Problem with migration lib: m1: boom" |})
                    None;
                  EvRollback 1] |}).
Proof. vm_compute. reflexivity. Qed.



(** C3 fails as stated: a migration that succeeds has its status row written
    in the very transaction that ran its script; only one transaction is
    opened. *)
Lemma status_write_shares_transaction :
  let '(_, _, w') :=
    DoOneMigration sample_check sample_name_string no_faults (New "") sample_db
      safe_script empty_world in
  begins (trace w') = [(0, None)]
  /\ scripts_run (trace w') = [(0, "CREATE TABLE IF NOT EXISTS t (id int)")]
  /\ status_writes (trace w')
     = [(0, {| row_table := "libschema.tracking"; row_library := "lib";
               row_migration := "m2"; row_done := true; row_error := "" |})].
Proof. vm_compute. repeat split. Qed.

Lemma status_write_transaction_witness :
  (exists out m' w',
     DoOneMigration sample_check sample_name_string no_faults (New "") sample_db
       safe_script empty_world = (out, m', w')
     /\ new_events
          (log (EvExec (Some 0) (StScript "CREATE TABLE IF NOT EXISTS t (id int)") None)
             first_tx_open) w'
        = [EvExec (Some 0)
             (StReplaceStatus (status_row (New "") sample_db safe_script true "")) None;
           EvCommit 0 None]
     /\ tracking w' = [status_row (New "") sample_db safe_script true ""])
  /\ (exists out m' w',
       DoOneMigration sample_check sample_name_string no_faults (New "") sample_db
         failing_computed empty_world = (out, m', w')
       /\ 1 <> 0
       /\ exists saved rest,
            new_events first_tx_open w'
            = EvRollback 0 :: EvBeginTx 1 None
              :: EvExec (Some 1)
                   (StReplaceStatus
                      (status_row (New "") sample_db failing_computed false
                         "Problem with migration lib: m1: boom")) saved
              :: rest).
Proof.
  split.
  - exact (status_write_transaction sample_check sample_name_string no_faults
             (New "") sample_db safe_script empty_world first_tx_open first_tx_open
             (log (EvExec (Some 0) (StScript "CREATE TABLE IF NOT EXISTS t (id int)") None)
                first_tx_open)
             0 (Some (ResultOf (StScript "CREATE TABLE IF NOT EXISTS t (id int)"))) None
             eq_refl eq_refl eq_refl).
  - exact (status_write_transaction sample_check sample_name_string no_faults
             (New "") sample_db failing_computed empty_world first_tx_open first_tx_open
             first_tx_open 0 None (Some (ErrNew "boom"))
             eq_refl eq_refl eq_refl).
Defined.

Lemma script_policy_witness :
  (exists out m' w',
     DoOneMigration sample_check sample_name_string no_faults (New "") sample_db
       index_script empty_world = (out, m', w')
     /\ scripts_run (new_events empty_world w') = []
     /\ exists e, out = Returned (None, Some e)
          /\ Cause e = ErrNew "Unconditional migration has non-idempotent DDL (Data Definition Language [schema changes])")
  /\ (exists out m' w',
       DoOneMigration sample_check sample_name_string no_faults (New "") sample_db
         safe_script empty_world = (out, m', w')
       /\ scripts_run (new_events empty_world w')
          = [(0, "CREATE TABLE IF NOT EXISTS t (id int)")]).
Proof.
  split.
  - exact (script_policy sample_check sample_name_string no_faults (New "")
             sample_db index_script empty_world first_tx_open first_tx_open 0
             (fun _ => "CREATE INDEX idx ON t(c)") eq_refl eq_refl eq_refl).
  - exact (script_policy sample_check sample_name_string no_faults (New "")
             sample_db safe_script empty_world first_tx_open first_tx_open 0
             (fun _ => "CREATE TABLE IF NOT EXISTS t (id int)")
             eq_refl eq_refl eq_refl).
Defined.

(** C5 fails as stated: the namespace override is checked inside the
    transaction, so the configuration error comes back after the database
    has been asked to begin a transaction (and before it is asked to roll it
    back). *)
Lemma override_error_after_begin :
  let '(out, _, w') :=
    DoOneMigration sample_check sample_name_string no_faults (New "")
      bad_override_db safe_script empty_world in
  out = Returned (None, Some (ErrNew "Options.SchemaOverride must be a simple identifier, not 'app; DROP TABLE x'"))
  /\ trace w' = [EvBeginTx 0 None; EvRollback 0].
Proof. vm_compute. split; reflexivity. Qed.

Lemma configuration_errors_surface_witness :
  (LockMigrationsTable no_faults (New "") bad_tracking_db empty_world
   = (Some (ErrNew "Tracking table 'sch.tab.extra' is not valid"), New "", empty_world)
   /\ CreateSchemaTableIfNotExists no_faults (New "") bad_tracking_db empty_world
      = (Some (ErrNew "Tracking table 'sch.tab.extra' is not valid"), empty_world))
  /\ snd (trackingSchemaTable sample_db) = None
  /\ valid_tracking_name "libschema.tracking"
  /\ (exists w',
        DoOneMigration sample_check sample_name_string no_faults (New "")
          bad_override_db safe_script empty_world
        = (Returned (None,
                     Some (ErrNew ("Options.SchemaOverride must be a simple identifier, not '"
                                   +++ "app; DROP TABLE x" +++ "'"))), safe_script, w')
        /\ new_events empty_world w' = [EvBeginTx 0 None; EvRollback 0]
        /\ tracking w' = []).
Proof.
  assert (Hvalid : valid_tracking_name "libschema.tracking").
  { right. exists "libschema", "tracking". repeat split; reflexivity. }
  split; [|split; [|split]].
  - exact (proj1 (configuration_errors_surface sample_check sample_name_string
                    no_faults (New "") bad_tracking_db safe_script empty_world)
             "" "" (ErrNew "Tracking table 'sch.tab.extra' is not valid") eq_refl).
  - exact (proj2 (proj1 (proj2 (configuration_errors_surface sample_check
                                  sample_name_string no_faults (New "") sample_db
                                  safe_script empty_world))) Hvalid).
  - exact (proj1 (proj1 (proj2 (configuration_errors_surface sample_check
                                  sample_name_string no_faults (New "") sample_db
                                  safe_script empty_world))) eq_refl).
  - exact (proj2 (proj2 (configuration_errors_surface sample_check sample_name_string
                           no_faults (New "") bad_override_db safe_script empty_world))
             eq_refl eq_refl).
Defined.

Lemma second_begin_failure_reports_both_witness :
  exists w',
    DoOneMigration sample_check sample_name_string second_begin_fails (New "")
      sample_db failing_computed empty_world
    = (Returned (None,
                 Some (ErrWrap (ErrWrap (ErrNew "boom") "Problem with migration lib: m1")
                         "Tx for saving status for lib: m1 also failed with connection refused")),
       failing_computed, w')
    /\ Error (ErrWrap (ErrWrap (ErrNew "boom") "Problem with migration lib: m1")
                "Tx for saving status for lib: m1 also failed with connection refused")
       = "Tx for saving status for lib: m1 also failed with connection refused: Problem with migration lib: m1: boom"
    /\ new_events first_tx_open w'
       = [EvRollback 0; EvBeginTx 1 (Some (ErrNew "connection refused")); EvRollback 0]
    /\ status_writes (new_events empty_world w') = []
    /\ tracking w' = [].
Proof.
  exact (second_begin_failure_reports_both sample_check sample_name_string
           second_begin_fails (New "") sample_db failing_computed
           empty_world first_tx_open first_tx_open first_tx_open 0 None
           (ErrNew "boom") (ErrNew "connection refused")
           eq_refl eq_refl eq_refl eq_refl).
Defined.

(** * Further properties of the code *)

Ltac since :=
  repeat (erewrite new_events_app
            by (simpl; repeat rewrite <- app_assoc; simpl; reflexivity)).

Ltac case_inner :=
  match goal with
  | |- context [match ?x with _ => _ end] =>
      lazymatch x with
      | context [match _ with _ => _ end] => fail
      | _ => destruct x eqn:?
      end
  end.

Ltac step_code :=
  unfold DoOneMigration, useSchemaOverride, attempt, HasSkipIf,
    recordStatus, saveStatus, deferred_finish, deferred_status, bind, ret,
    TxRollback, TxCommit, TxExec, BeginTx, log, apply_stmt;
  repeat (repeat (progress (simpl; rewrite ?Nat.eqb_refl)); try case_inner).

Lemma pending_close_tx_other (t tx : Tx) (o : list (Tx * list Row)) :
  pending t (close_tx tx o) = if Nat.eqb t tx then None else pending t o.
Proof.
  destruct (Nat.eqb_spec t tx) as [->|Hne]; [apply pending_close_tx|].
  induction o as [|[a ws] o IH]; simpl; [reflexivity|].
  destruct (Nat.eqb_spec a tx) as [->|Ha]; simpl.
  - rewrite IH. destruct (Nat.eqb_spec tx t); [congruence|reflexivity].
  - now rewrite IH.
Qed.

Lemma append_assoc (a b c : string) : (a +++ b) +++ c = a +++ b +++ c.
Proof.
  unfold String.append.
  induction a as [|x a IH]; [reflexivity|].
  fold String.append in *. change ((String x a +++ b) +++ c) with (String x ((a +++ b) +++ c)).
  change (String x a +++ b +++ c) with (String x (a +++ b +++ c)).
  now rewrite IH.
Qed.

Lemma append_nil_r (a : string) : a +++ "" = a.
Proof.
  induction a as [|x a IH]; [reflexivity|].
  change (String x a +++ "") with (String x (a +++ "")). now rewrite IH.
Qed.

Lemma mentions_self (n : string) : mentions n n.
Proof. exists "", "". change ("" +++ n +++ "") with (n +++ ""). now rewrite append_nil_r. Qed.

Lemma mentions_here (n post : string) : mentions n (n +++ post).
Proof. exists "", post. reflexivity. Qed.

Lemma mentions_app_l (n a s : string) : mentions n s -> mentions n (a +++ s).
Proof.
  intros (pre & post & ->). exists (a +++ pre), post. now rewrite append_assoc.
Qed.

Ltac find_mention :=
  repeat first [ apply mentions_here | apply mentions_self | apply mentions_app_l ].

Lemma same_key_refl (r : Row) : same_key r r = true.
Proof. unfold same_key. now rewrite !String.eqb_refl. Qed.

Lemma filter_filter_neg {A : Type} (f : A -> bool) (l : list A) :
  filter f (filter (fun x => negb (f x)) l) = [].
Proof.
  induction l as [|a l IH]; simpl; [reflexivity|].
  destruct (f a) eqn:E; simpl; [exact IH|]. now rewrite E.
Qed.

Lemma filter_idem {A : Type} (f : A -> bool) (l : list A) :
  filter f (filter f l) = filter f l.
Proof.
  induction l as [|a l IH]; simpl; [reflexivity|].
  destruct (f a) eqn:E; simpl; [rewrite E; now f_equal|exact IH].
Qed.

(** What [REPLACE] does to a table: the key has exactly the new row, the
    rows of the other keys stay, in their order. *)
Lemma replace_row_spec (t : list Row) (r : Row) :
  filter (same_key r) (replace_row t r) = [r]
  /\ filter (fun x => negb (same_key r x)) (replace_row t r)
     = filter (fun x => negb (same_key r x)) t.
Proof.
  unfold replace_row. rewrite !filter_app. simpl. rewrite same_key_refl. simpl.
  rewrite filter_filter_neg, filter_idem, app_nil_r. split; reflexivity.
Qed.

Section Executor.

Variable CheckScript : string -> CheckResult.
Variable MigrationName_String : MigrationName -> string.
Variable drv : Driver.

(** The in-memory status after any call that returned: done with a nil
    error, untouched with an error. *)
Lemma DoOneMigration_status
    (p : MySQL) (d : Database) (m : mmigration) (w : World) :
  exists out m' w',
    DoOneMigration CheckScript MigrationName_String drv p d m w = (out, m', w')
    /\ forall result err,
         out = Returned (result, err) ->
         m' = match err with
              | None => SetStatus m {| Done := true; ErrorText := "" |}
              | Some _ => m
              end.
Proof.
  step_code.
  all: do 3 eexists; (split; [reflexivity|]); intros result err Hout;
    try discriminate Hout; injection Hout as _ <-; reflexivity.
Qed.

(** X2.  Every transaction that [DoOneMigration] opens is committed or rolled
    back by the time it returns, and the other transactions are as open as
    they were. *)
Theorem DoOneMigration_closes_its_transactions
    (p : MySQL) (d : Database) (m : mmigration) (w : World) :
  exists out m' w',
    DoOneMigration CheckScript MigrationName_String drv p d m w = (out, m', w')
    /\ forall t,
         pending t (open_tx w')
         = if existsb (Nat.eqb t) (opened (new_events w w')) then None
           else pending t (open_tx w).
Proof.
  step_code.
  all: do 3 eexists; (split; [reflexivity|]); intros t; since; simpl;
    rewrite ?pending_close_tx_other; simpl.
  all: repeat match goal with
              | |- context [Nat.eqb ?a ?x] => destruct (Nat.eqb a x)
              end; reflexivity.
Qed.

Ltac split_statements :=
  match goal with
  | |- exists u s r, [] = _ /\ _ => exists [], [], []
  | |- exists u s r, [StUse ?o] = _ /\ _ => exists [StUse o], [], []
  | |- exists u s r, [StScript ?x] = _ /\ _ => exists [], [StScript x], []
  | |- exists u s r, [StReplaceStatus ?y] = _ /\ _ =>
      exists [], [], [StReplaceStatus y]
  | |- exists u s r, [StUse ?o; StScript ?x] = _ /\ _ =>
      exists [StUse o], [StScript x], []
  | |- exists u s r, [StUse ?o; StReplaceStatus ?y] = _ /\ _ =>
      exists [StUse o], [], [StReplaceStatus y]
  | |- exists u s r, [StScript ?x; StReplaceStatus ?y] = _ /\ _ =>
      exists [], [StScript x], [StReplaceStatus y]
  | |- exists u s r, [StUse ?o; StScript ?x; StReplaceStatus ?y] = _ /\ _ =>
      exists [StUse o], [StScript x], [StReplaceStatus y]
  end.

(** X3.  The statements of one [DoOneMigration] are, in this order and each
    at most once: the namespace switch to the configured override, which is
    sent only when the override is an identifier; the text the generator
    gave for the first transaction; the [REPLACE] of the migration's row.
    Nothing else is ever sent. *)
Theorem DoOneMigration_statement_order
    (p : MySQL) (d : Database) (m : mmigration) (w : World) :
  exists out m' w',
    DoOneMigration CheckScript MigrationName_String drv p d m w = (out, m', w')
    /\ exists u s r,
         statements (new_events w w') = u ++ s ++ r
         /\ (u = []
             \/ (u = [StUse (SchemaOverride (DbOptions d))]
                 /\ simpleIdentifierRE (SchemaOverride (DbOptions d)) = true))
         /\ (s = [] \/ exists g, script m = Some g /\ s = [StScript (g (next_tx w))])
         /\ (r = []
             \/ exists done estr, r = [StReplaceStatus (status_row p d m done estr)]).
Proof.
  destruct (script m) as [generator|] eqn:Hs.
  all: unfold DoOneMigration, attempt; rewrite ?Hs; step_code.
  all: do 3 eexists; (split; [reflexivity|]); since; simpl.
  all: split_statements; (split; [reflexivity|]).
  all: repeat split;
    first [ left; reflexivity
          | right; split; [reflexivity|];
            match goal with
            | H : negb _ = false |- _ => apply negb_false_iff in H; exact H
            end
          | right; eexists; split; reflexivity
          | right; do 2 eexists; reflexivity ].
Qed.

(** X4.  When the override is an identifier and the transaction opens, the
    namespace switch is the first statement of the transaction; if the server
    refuses it, [DoOneMigration] rolls back and returns that error wrapped,
    having sent nothing else: no script, no [REPLACE]. *)
Theorem namespace_switch_first
    (p : MySQL) (d : Database) (m : mmigration) (w : World) :
  let override := SchemaOverride (DbOptions d) in
  let tx : Tx := next_tx w in
  String.eqb override "" = false ->
  simpleIdentifierRE override = true ->
  begin_fault drv tx = None ->
  exists out m' w' rest,
    DoOneMigration CheckScript MigrationName_String drv p d m w = (out, m', w')
    /\ new_events w w'
       = EvBeginTx tx None
         :: EvExec (Some tx) (StUse override) (exec_fault drv (Some tx) (StUse override))
         :: rest
    /\ forall e, exec_fault drv (Some tx) (StUse override) = Some e ->
         rest = [EvRollback tx]
         /\ out = Returned (None,
                           Some (ErrWrap e ("Set search path to " +++ override +++ " for "
                                            +++ MigrationName_String (BaseName (Base m)))))
         /\ m' = m /\ tracking w' = tracking w.
Proof.
  intros override tx Hne Hid Hbegin. subst override tx.
  unfold DoOneMigration, useSchemaOverride, BeginTx, bind, ret.
  rewrite Hbegin. simpl. rewrite Hne, Hid. simpl.
  step_code.
  all: do 4 eexists; (split; [reflexivity|]).
  all: try match goal with
    | H : exec_fault _ _ (StUse _) = _ |- _ => rewrite H
    end.
  all:  (split; [since; reflexivity|]).
  all: intros e' He'; try discriminate He'; injection He' as <-; repeat split.
Qed.

(** X5.  A migration that [IsMigrationSupported] refuses makes
    [DoOneMigration] panic once the transaction is open and the namespace
    switch is through; the deferred functions still run, so the empty
    transaction is committed and, if that commit goes through, the in-memory
    status is set to done.  Nothing is written to the tracking table. *)
Theorem unsupported_migration_panics
    (p : MySQL) (d : Database) (m : mmigration) (w w1 w2 : World) (tx : Tx) :
  IsMigrationSupported MigrationName_String m <> None ->
  BeginTx drv w = (inl tx, w1) ->
  useSchemaOverride MigrationName_String drv d m tx w1 = (None, w2) ->
  exists m' w',
    DoOneMigration CheckScript MigrationName_String drv p d m w = (Panicked, m', w')
    /\ new_events w2 w' = [EvCommit tx (commit_fault drv tx)]
    /\ status_writes (new_events w w') = []
    /\ tracking w' = tracking w
    /\ m' = match commit_fault drv tx with
            | None => SetStatus m {| Done := true; ErrorText := "" |}
            | Some _ => m
            end.
Proof.
  unfold IsMigrationSupported. intros Hsup Hb Hu.
  destruct (script m) eqn:Hs; [now elim Hsup|].
  destruct (computed m) eqn:Hc; [now elim Hsup|]. clear Hsup.
  assert (Ha : attempt CheckScript drv m tx w2 = (Panicked, w2))
    by (unfold attempt; rewrite Hs, Hc; reflexivity).
  destruct (attempt_reached CheckScript MigrationName_String drv d m w w1 w2 w2 tx _ Hb Hu Ha)
    as (evs & Htx & Hw2 & Hsw & _ & _).
  unfold DoOneMigration, bind, ret. rewrite Hb, Hu, Ha.
  rewrite Hw2. subst tx. clear Hb Hu Ha Hw2.
  unfold deferred_finish, deferred_status, TxCommit, bind, ret. simpl.
  rewrite Nat.eqb_refl.
  destruct (commit_fault drv (next_tx w)); simpl.
  all: do 2 eexists; (split; [reflexivity|]); since; simpl;
    rewrite status_writes_app, Hsw; repeat split.
Qed.

(** X6.  Every error that [DoOneMigration] returns names the migration in
    the message it prints first, with one exception: the error about an
    override that is not an identifier, which is the bare message
    [Options.SchemaOverride must be a simple identifier, not '<override>'],
    returned only for such an override. *)
Theorem DoOneMigration_error_names_migration
    (p : MySQL) (d : Database) (m : mmigration) (w : World) :
  exists out m' w',
    DoOneMigration CheckScript MigrationName_String drv p d m w = (out, m', w')
    /\ forall result e,
         out = Returned (result, Some e) ->
         mentions (MigrationName_String (BaseName (Base m))) (outer_message e)
         \/ (e = ErrNew ("Options.SchemaOverride must be a simple identifier, not '"
                         +++ SchemaOverride (DbOptions d) +++ "'")
             /\ override_rejected d = true).
Proof.
  step_code.
  all: do 3 eexists; (split; [reflexivity|]); intros result e' Hout;
    try discriminate Hout; injection Hout as _ <-; simpl.
  all: try (left; find_mention; fail).
  all: right; (split; [reflexivity|]); unfold override_rejected;
    repeat match goal with
           | H : String.eqb _ _ = _ |- _ => rewrite H; clear H
           | H : negb _ = _ |- _ => rewrite H; clear H
           end; reflexivity.
Qed.

(** The tracking table after any call: replaced by the migration's done row if
    the call returned nil, untouched otherwise. *)
Lemma DoOneMigration_tracking
    (p : MySQL) (d : Database) (m : mmigration) (w : World) :
  exists out m' w',
    DoOneMigration CheckScript MigrationName_String drv p d m w = (out, m', w')
    /\ tracking w' = match out with
                     | Returned (_, None) =>
                         replace_row (tracking w) (status_row p d m true "")
                     | _ => tracking w
                     end.
Proof.
  step_code.
  all: do 3 eexists; split; reflexivity.
Qed.

(** X1.  Whenever [DoOneMigration] returns, the in-memory status is set to
    done if the error is nil and left as it was otherwise; and with a nil
    error the migration's row (done, empty error) has replaced whatever row
    the tracking table had for it. *)
Theorem DoOneMigration_done_exactly_on_nil
    (p : MySQL) (d : Database) (m m' : mmigration) (w w' : World)
    (result : option sqlResult) (err : option error) :
  DoOneMigration CheckScript MigrationName_String drv p d m w
  = (Returned (result, err), m', w') ->
  m' = match err with
       | None => SetStatus m {| Done := true; ErrorText := "" |}
       | Some _ => m
       end
  /\ (err = None ->
      tracking w' = replace_row (tracking w) (status_row p d m true "")).
Proof.
  intros Hrun. split.
  - destruct (DoOneMigration_status p d m w) as (out & m1 & w1 & Hrun1 & Hst).
    rewrite Hrun in Hrun1. injection Hrun1 as <- <- <-.
    exact (Hst result err eq_refl).
  - intros ->.
    destruct (DoOneMigration_tracking p d m w) as (out & m1 & w1 & Hrun1 & Htr).
    rewrite Hrun in Hrun1. injection Hrun1 as <- <- <-. exact Htr.
Qed.

(** X7.  After a call that returned nil the tracking table holds exactly one
    row with the migration's key, the row (done, empty error), and the rows
    of every other key are the ones it held before, in the same order. *)
Theorem successful_run_leaves_one_row
    (p : MySQL) (d : Database) (m m' : mmigration) (w w' : World)
    (result : option sqlResult) :
  DoOneMigration CheckScript MigrationName_String drv p d m w
  = (Returned (result, None), m', w') ->
  let row := status_row p d m true "" in
  filter (same_key row) (tracking w') = [row]
  /\ filter (fun x => negb (same_key row x)) (tracking w')
     = filter (fun x => negb (same_key row x)) (tracking w).
Proof.
  intros Hrun row.
  destruct (DoOneMigration_tracking p d m w) as (out & m1 & w1 & Hrun1 & Htr).
  rewrite Hrun in Hrun1. injection Hrun1 as <- <- <-.
  rewrite Htr. apply replace_row_spec.
Qed.

End Executor.

(** ** More on the lock manager and the tracking table *)

Section Tables.

Variable drv : Driver.

(** X8.  Acquire and Release compose: from a driver that holds no lock, when
    the transaction opens and the lock is granted, Acquire keeps that
    transaction as the handle and the name [libschema_] followed by the
    tracking-table name; Release then sends the release call for the same
    name on the same transaction and rolls it back, leaving the driver
    without a handle, the transaction closed and the tracking table as it
    was. *)
Theorem lock_then_unlock
    (p : MySQL) (d : Database) (w : World) (schema table : string) :
  let tx : Tx := next_tx w in
  let name := "libschema_" +++ table in
  lockTx p = None ->
  p_trackingSchemaTable p d = (schema, table, None) ->
  begin_fault drv tx = None ->
  exec_fault drv (Some tx) (StGetLock name) = None ->
  exists p1 w1,
    LockMigrationsTable drv p d w = (None, p1, w1)
    /\ lockTx p1 = Some tx /\ lockStr p1 = name
    /\ exists p2 w2,
    UnlockMigrationsTable drv p1 w1
    = (Wrap (exec_fault drv (Some tx) (StReleaseLock name))
         "Could not release explicit lock for schema migrations", p2, w2)
    /\ lockTx p2 = None /\ lockStr p2 = name
    /\ new_events w w2
       = [EvBeginTx tx None; EvExec (Some tx) (StGetLock name) None;
          EvExec (Some tx) (StReleaseLock name)
            (exec_fault drv (Some tx) (StReleaseLock name));
          EvRollback tx]
    /\ pending tx (open_tx w2) = None
    /\ tracking w2 = tracking w.
Proof.
  intros tx name Hfree Hcfg Hbegin Hlock. subst tx name.
  unfold LockMigrationsTable, UnlockMigrationsTable, bind, ret, BeginTx, TxExec,
    TxRollback, log.
  rewrite Hcfg, Hfree, Hbegin. simpl. rewrite Nat.eqb_refl, Hlock. simpl.
  do 2 eexists. split; [reflexivity|]. simpl.
  split; [reflexivity|]. split; [reflexivity|].
  rewrite ?Nat.eqb_refl.
  match goal with
  | |- context [exec_fault drv ?a (StReleaseLock ?n)] =>
      destruct (exec_fault drv a (StReleaseLock n))
  end; simpl; rewrite ?Nat.eqb_refl.
  all: do 2 eexists; repeat (split; [reflexivity|]).
  all: split; [since; reflexivity|]; split; [apply pending_close_tx|reflexivity].
Qed.

(** X9.  When the transaction opens and the lock request fails, Acquire
    returns the error wrapped and takes no handle; the transaction it opened
    is neither rolled back nor committed, it stays open, and [lockStr] keeps
    the name that was asked for. *)
Theorem lock_refused_leaves_transaction_open
    (p : MySQL) (d : Database) (w : World) (schema table : string) (e : error) :
  let tx : Tx := next_tx w in
  let name := "libschema_" +++ table in
  lockTx p = None ->
  p_trackingSchemaTable p d = (schema, table, None) ->
  begin_fault drv tx = None ->
  exec_fault drv (Some tx) (StGetLock name) = Some e ->
  exists p' w',
    LockMigrationsTable drv p d w
    = (Some (ErrWrap e "Could not get lock for libschema migrations"), p', w')
    /\ lockTx p' = None /\ lockStr p' = name
    /\ new_events w w' = [EvBeginTx tx None; EvExec (Some tx) (StGetLock name) (Some e)]
    /\ pending tx (open_tx w') = Some [].
Proof.
  intros tx name Hfree Hcfg Hbegin Hlock. subst tx name.
  unfold LockMigrationsTable, bind, ret, BeginTx, TxExec, log.
  rewrite Hcfg, Hfree, Hbegin. simpl. rewrite Nat.eqb_refl, Hlock. simpl.
  do 2 eexists. split; [reflexivity|]. split; [exact Hfree|].
  split; [reflexivity|]. split; [since; reflexivity|].
  simpl. now rewrite Nat.eqb_refl.
Qed.

(** X10.  On any error Acquire leaves the handle as it found it, and on any
    outcome it leaves the tracking table alone. *)
Theorem lock_error_keeps_handle
    (p p' : MySQL) (d : Database) (w w' : World) (e : error) :
  LockMigrationsTable drv p d w = (Some e, p', w') ->
  lockTx p' = lockTx p /\ tracking w' = tracking w.
Proof.
  unfold LockMigrationsTable, bind, ret, BeginTx, TxExec, log.
  destruct (p_trackingSchemaTable p d) as [[schema table] [cfg|]].
  - intros H. injection H as _ <- <-. split; reflexivity.
  - destruct (lockTx p) eqn:Hheld.
    + intros H. injection H as _ <- <-. split; [exact Hheld|reflexivity].
    + destruct (begin_fault drv (next_tx w)); simpl.
      * intros H. injection H as _ <- <-. split; [exact Hheld|reflexivity].
      * rewrite Nat.eqb_refl.
        match goal with
        | |- context [exec_fault drv ?a ?st] => destruct (exec_fault drv a st)
        end; simpl; intros H.
        -- injection H as _ <- <-. split; [exact Hheld|reflexivity].
        -- discriminate.
Qed.

Lemma trackingSchemaTable_shape (d : Database) :
  let n := TrackingTable (DbOptions d) in
  match trackingSchemaTable d with
  | (schema, table, None) =>
      table = n
      /\ ((schema = "" /\ simpleIdentifierRE n = true)
          \/ (simpleIdentifierRE schema = true
              /\ exists t, simpleIdentifierRE t = true /\ n = schema +++ "." +++ t))
  | (schema, table, Some _) => schema = "" /\ table = ""
  end.
Proof.
  intros n. unfold trackingSchemaTable. fold n.
  pose proof (join_Split_dot n) as Hjoin.
  destruct (Split_dot n) as [|a [|b [|c l]]]; simpl; try (split; reflexivity).
  - destruct (simpleIdentifierRE n) eqn:Hn; simpl; [|split; reflexivity].
    split; [reflexivity|]. left. split; reflexivity.
  - destruct (simpleIdentifierRE a) eqn:Ha; simpl; [|split; reflexivity].
    destruct (simpleIdentifierRE b) eqn:Hb; simpl; [|split; reflexivity].
    simpl in Hjoin. split; [exact Hjoin|].
    right. split; [exact Ha|]. exists b. split; [exact Hb|]. now symmetry.
Qed.

(** X11.  When the default [trackingSchemaTable] accepts a name, the table
    name it returns is the configured name itself, and the schema is empty
    for an unqualified name and the part before the dot otherwise; when it
    refuses, both strings it returns are empty. *)
Theorem trackingSchemaTable_result (d : Database) :
  let n := TrackingTable (DbOptions d) in
  match trackingSchemaTable d with
  | (schema, table, None) =>
      table = n
      /\ ((schema = "" /\ simpleIdentifierRE n = true)
          \/ (simpleIdentifierRE schema = true
              /\ exists t, simpleIdentifierRE t = true /\ n = schema +++ "." +++ t))
  | (schema, table, Some _) => schema = "" /\ table = ""
  end.
Proof. exact (trackingSchemaTable_shape d). Qed.

Lemma all_word_safe (s : string) : all_word s = true -> all_safe s = true.
Proof.
  induction s as [|c s IH]; simpl; [reflexivity|].
  intros H. apply andb_true_iff in H as [Hc Hs]. now rewrite Hc, (IH Hs).
Qed.

Lemma all_safe_dot (a b : string) :
  all_safe a = true -> all_safe b = true -> all_safe (a +++ "." +++ b) = true.
Proof.
  intros Ha Hb. induction a as [|c a IH].
  - change ("" +++ "." +++ b) with (String "."%char b). simpl.
    rewrite ?orb_true_r. simpl. exact Hb.
  - simpl in Ha. apply andb_true_iff in Ha as [Hc Ha].
    change (String c a +++ "." +++ b) with (String c (a +++ "." +++ b)).
    simpl. now rewrite Hc, (IH Ha).
Qed.

(** X12.  Whatever the configuration, the table name that a driver with the
    default naming rule puts into its SQL text is made of letters, digits,
    underscores and dots only; for a name that was refused it is the empty
    string. *)
Theorem default_tracking_table_is_safe (schemaOverride : string) (d : Database) :
  all_safe (trackingTable (New schemaOverride) d) = true
  /\ (snd (trackingSchemaTable d) <> None -> trackingTable (New schemaOverride) d = "").
Proof.
  unfold trackingTable. simpl.
  pose proof (trackingSchemaTable_shape d) as Hres. simpl in Hres.
  destruct (trackingSchemaTable d) as [[schema table] [e|]]; simpl.
  - destruct Hres as [_ ->]. split; reflexivity.
  - split; [|intros H; now elim H].
    destruct Hres as [-> [[_ Hn]|(Hs & t & Ht & ->)]].
    + now apply all_word_safe, simpleIdentifierRE_word.
    + apply all_safe_dot; now apply all_word_safe, simpleIdentifierRE_word.
Qed.

(** X13.  [CreateSchemaTableIfNotExists] with an accepted name opens no
    transaction and touches no row.  It sends [CREATE SCHEMA] only for a
    schema-qualified name and [CREATE TABLE] only after that went through;
    its error is the wrapped error of the statement that failed. *)
Theorem CreateSchemaTableIfNotExists_statements
    (p : MySQL) (d : Database) (w : World) (schema table : string) :
  p_trackingSchemaTable p d = (schema, table, None) ->
  let cs := exec_fault drv None (StCreateSchema schema) in
  let ct := exec_fault drv None (StCreateTable table) in
  let table_error :=
    Wrap ct ("Could not create libschema migrations table '" +++ table +++ "'") in
  exists err w',
    CreateSchemaTableIfNotExists drv p d w = (err, w')
    /\ if String.eqb schema "" then
         err = table_error
         /\ only_logs w w' [EvExec None (StCreateTable table) ct]
       else
         match cs with
         | Some e =>
             err = Some (ErrWrap e ("Could not create libschema schema '" +++ schema +++ "'"))
             /\ only_logs w w' [EvExec None (StCreateSchema schema) (Some e)]
         | None =>
             err = table_error
             /\ only_logs w w' [EvExec None (StCreateSchema schema) None;
                                EvExec None (StCreateTable table) ct]
         end.
Proof.
  intros Hcfg cs ct table_error. subst cs ct table_error.
  unfold CreateSchemaTableIfNotExists, bind, ret, DBExec, log, only_logs.
  rewrite Hcfg.
  destruct (String.eqb schema ""); simpl.
  - do 2 eexists. split; [reflexivity|]. simpl. repeat split.
  - destruct (exec_fault drv None (StCreateSchema schema)); simpl.
    + do 2 eexists. split; [reflexivity|]. simpl. repeat split.
    + do 2 eexists. split; [reflexivity|]. simpl. rewrite <- app_assoc. repeat split.
Qed.

End Tables.

(** ** More on loading the statuses *)

Section Loader.

Variable CheckScript : string -> CheckResult.
Variable MigrationName_String : MigrationName -> string.
Variable drv : Driver.

(** X14.  [LoadStatus] only reads: whatever happens it sends one statement,
    the status query on the tracking table, opens no transaction and leaves
    every row as it was; when the query fails it returns that error wrapped,
    no names, and the statuses untouched. *)
Theorem LoadStatus_reads_only (p : MySQL) (d : Database) (w : World) :
  let q := exec_fault drv None (StSelectStatus (trackingTable p d)) in
  exists unknowns err d' w',
    LoadStatus drv p d w = (unknowns, err, d', w')
    /\ only_logs w w' [EvExec None (StSelectStatus (trackingTable p d)) q]
    /\ forall e, q = Some e ->
         unknowns = [] /\ err = Some (ErrWrap e "Cannot query migration status")
         /\ d' = d.
Proof.
  intros q. subst q. unfold LoadStatus, DBQuery, bind, ret, log, only_logs.
  destruct (exec_fault drv None (StSelectStatus (trackingTable p d))) as [qe|]; simpl.
  - do 4 eexists. split; [reflexivity|]. simpl. split; [repeat split|].
    intros e He. injection He as <-. repeat split.
  - destruct (load_rows drv _ d []) as [[err unknowns] d']. simpl.
    do 4 eexists. split; [reflexivity|]. simpl. split; [repeat split|].
    discriminate.
Qed.

Lemma load_rows_scan_error (r : Row) (l2 : list Row) (e : error) :
  scan_fault drv r = Some e ->
  forall (l1 : list Row) (d : Database) (u : list MigrationName),
    (forall x, In x l1 -> scan_fault drv x = None) ->
    exists u1 d1,
      load_rows drv l1 d u = (None, u1, d1)
      /\ load_rows drv (l1 ++ r :: l2) d u
         = (Some (ErrWrap e "Cannot scan migration status"), [], d1).
Proof.
  intros Hr. induction l1 as [|x l1 IH]; intros d u Hscan; simpl.
  - rewrite Hr. do 2 eexists. split; reflexivity.
  - rewrite (Hscan x (or_introl eq_refl)).
    assert (Hrest : forall y, In y l1 -> scan_fault drv y = None)
      by (intros y Hy; apply Hscan; now right).
    destruct (Lookup d _); [|destruct (row_done x)]; now apply IH.
Qed.

(** X15.  When a row does not scan, [LoadStatus] returns the scan error
    wrapped and no names, even if unknown done rows came before; the statuses
    of the rows before the failing one are applied all the same, and the rows
    after it are not looked at. *)
Theorem LoadStatus_scan_error
    (p : MySQL) (d : Database) (w : World) (l1 l2 : list Row) (r : Row) (e : error) :
  exec_fault drv None (StSelectStatus (trackingTable p d)) = None ->
  filter (fun x => String.eqb (row_table x) (trackingTable p d)) (tracking w)
  = l1 ++ r :: l2 ->
  (forall x, In x l1 -> scan_fault drv x = None) ->
  scan_fault drv r = Some e ->
  exists d' w',
    LoadStatus drv p d w
    = ([], Some (ErrWrap e "Cannot scan migration status"), d', w')
    /\ forall n, Lookup d' n
                 = match last_status l1 n with
                   | Some b => option_map (loaded b) (Lookup d n)
                   | None => Lookup d n
                   end.
Proof.
  intros Hquery Hrows Hscan Hr.
  destruct (load_rows_scan_error r l2 e Hr l1 d [] Hscan) as (u1 & d1 & Hl1 & Hall).
  destruct (load_rows_spec drv l1 d [] Hscan) as (d1' & Hspec & Hst).
  rewrite Hl1 in Hspec. injection Hspec as _ <-.
  unfold LoadStatus, DBQuery, bind, ret. rewrite Hquery, Hrows, Hall. simpl.
  do 2 eexists. split; [reflexivity|exact Hst].
Qed.

Lemma set_status_in_without_status
    (ms : list mmigration) (n : MigrationName) (s : MigrationStatus) :
  map without_status (set_status_in ms n s) = map without_status ms.
Proof.
  induction ms as [|m ms IH]; simpl; [reflexivity|].
  destruct (name_eqb (BaseName (Base m)) n); simpl; [reflexivity|now rewrite IH].
Qed.

Lemma load_rows_registry (rows : list Row) :
  forall (d : Database) (u : list MigrationName),
    DbOptions (snd (load_rows drv rows d u)) = DbOptions d
    /\ map without_status (migrations (snd (load_rows drv rows d u)))
       = map without_status (migrations d).
Proof.
  induction rows as [|r rows IH]; intros d u; simpl; [split; reflexivity|].
  destruct (scan_fault drv r); [split; reflexivity|].
  destruct (Lookup d _).
  - destruct (IH (SetStatusOf d {| Library := row_library r; Name := row_migration r |}
                    {| Done := row_done r; ErrorText := "" |}) u) as [Ho Hm].
    rewrite Ho, Hm. simpl. split; [reflexivity|apply set_status_in_without_status].
  - destruct (row_done r); apply IH.
Qed.

(** X16.  [LoadStatus] changes statuses and nothing else: in every case the
    database comes back with the same options and the same migrations, in
    the same order, with their names, skip-if declarations and functions. *)
Theorem LoadStatus_keeps_registry (p : MySQL) (d : Database) (w : World) :
  let d' := snd (fst (LoadStatus drv p d w)) in
  DbOptions d' = DbOptions d
  /\ map without_status (migrations d') = map without_status (migrations d).
Proof.
  unfold LoadStatus, DBQuery, bind, ret.
  destruct (exec_fault drv None (StSelectStatus (trackingTable p d))); simpl;
    [split; reflexivity|].
  pose proof (load_rows_registry
                (filter (fun r => String.eqb (row_table r) (trackingTable p d)) (tracking w))
                d []) as Hreg.
  destruct (load_rows drv _ d []) as [[err unknowns] d']. exact Hreg.
Qed.

Lemma last_status_last (xs : list Row) (r : Row) :
  last_status (xs ++ [r]) (row_name r) = Some (row_done r).
Proof.
  induction xs as [|x xs IH]; simpl.
  - now rewrite name_eqb_refl.
  - now rewrite IH.
Qed.

Lemma row_name_status_row (p : MySQL) (d : Database) (m : mmigration)
    (done : bool) (estr : string) :
  row_name (status_row p d m done estr) = BaseName (Base m).
Proof. unfold row_name, status_row. simpl. now destruct (BaseName (Base m)). Qed.

(** X17.  The executor and the loader compose: after a [DoOneMigration] that
    returned nil, a [LoadStatus] whose query and scans go through finds the
    migration done, provided the database knows it. *)
Theorem run_then_load
    (p : MySQL) (d : Database) (m m' m0 : mmigration) (w w' : World)
    (result : option sqlResult) :
  DoOneMigration CheckScript MigrationName_String drv p d m w
  = (Returned (result, None), m', w') ->
  Lookup d (BaseName (Base m)) = Some m0 ->
  exec_fault drv None (StSelectStatus (trackingTable p d)) = None ->
  (forall r, In r (tracking w') -> scan_fault drv r = None) ->
  exists unknowns d' w'',
    LoadStatus drv p d w' = (unknowns, None, d', w'')
    /\ Lookup d' (BaseName (Base m))
       = Some (SetStatus m0 {| Done := true; ErrorText := "" |}).
Proof.
  intros Hrun Hknown Hquery Hscan.
  destruct (DoOneMigration_tracking CheckScript MigrationName_String drv p d m w)
    as (out & m1 & w1 & Hrun1 & Htr).
  rewrite Hrun in Hrun1. injection Hrun1 as <- <- <-.
  set (row := status_row p d m true "") in *.
  set (rows := filter (fun r => String.eqb (row_table r) (trackingTable p d)) (tracking w')).
  assert (Hrows : exists xs, rows = xs ++ [row]).
  { unfold rows. rewrite Htr. unfold replace_row. rewrite filter_app. simpl.
    rewrite String.eqb_refl. eexists. reflexivity. }
  destruct Hrows as (xs & Hrows).
  assert (Hscan' : forall r, In r rows -> scan_fault drv r = None).
  { intros r Hr. apply Hscan. unfold rows in Hr. now apply filter_In in Hr as [Hr _]. }
  destruct (load_rows_spec drv rows d [] Hscan') as (d' & Hload & Hst).
  unfold LoadStatus, DBQuery, bind, ret. rewrite Hquery. fold rows. rewrite Hload.
  simpl. do 3 eexists. split; [reflexivity|].
  assert (Hlast : last_status (xs ++ [row]) (BaseName (Base m)) = Some true).
  { rewrite <- (row_name_status_row p d m true ""). apply last_status_last. }
  rewrite Hst, Hrows, Hlast, Hknown. reflexivity.
Qed.

End Loader.

(** ** The constructors *)

Lemma applyOpts_functions (opts : list MigrationOption) :
  forall m, script (applyOpts m opts) = script m
            /\ computed (applyOpts m opts) = computed m.
Proof.
  unfold applyOpts. induction opts as [|opt opts IH]; intros m; simpl;
    [split; reflexivity|].
  destruct (IH (set_base m (opt (Base m)))) as [Hs Hc]. now rewrite Hs, Hc.
Qed.

(** X19.  Options cannot make a migration unsupported or supported: a
    migration built by [Script] is always supported, one built by [Generate]
    or [Computed] is supported exactly when the function it was given is not
    nil. *)
Theorem constructors_supported
    (MigrationName_String : MigrationName -> string)
    (name sqlText : string) (generator : option (Tx -> string))
    (action : option (Tx -> option error)) (opts : list MigrationOption) :
  IsMigrationSupported MigrationName_String (Script name sqlText opts) = None
  /\ (IsMigrationSupported MigrationName_String (Generate name generator opts) = None
      <-> generator <> None)
  /\ (IsMigrationSupported MigrationName_String (Computed name action opts) = None
      <-> action <> None).
Proof.
  unfold IsMigrationSupported, Script, Generate, Computed.
  repeat split.
  - destruct (applyOpts_functions opts
                {| Base := named_base name; script := Some (fun _ => sqlText);
                   computed := None |}) as [-> _].
    reflexivity.
  - destruct (applyOpts_functions opts
                {| Base := named_base name; script := generator; computed := None |})
      as [-> ->].
    simpl. destruct generator; [discriminate|discriminate].
  - destruct (applyOpts_functions opts
                {| Base := named_base name; script := generator; computed := None |})
      as [-> ->].
    simpl. destruct generator; [reflexivity|]. intros H. now elim H.
  - destruct (applyOpts_functions opts
                {| Base := named_base name; script := None; computed := action |})
      as [-> ->].
    simpl. destruct action; discriminate.
  - destruct (applyOpts_functions opts
                {| Base := named_base name; script := None; computed := action |})
      as [-> ->].
    simpl. destruct action; [reflexivity|]. intros H. now elim H.
Qed.

(** ** The further properties on sample data *)

Lemma DoOneMigration_done_exactly_on_nil_witness :
  let r := DoOneMigration sample_check sample_name_string no_faults (New "") sample_db
             safe_script empty_world in
  snd (fst r) = SetStatus safe_script {| Done := true; ErrorText := "" |}
  /\ tracking (snd r)
     = replace_row [] (status_row (New "") sample_db safe_script true "").
Proof.
  destruct (DoOneMigration_done_exactly_on_nil sample_check sample_name_string
              no_faults (New "") sample_db safe_script _ empty_world _ _ None eq_refl)
    as [Hstatus Hrow].
  split; [exact Hstatus|exact (Hrow eq_refl)].
Defined.

Lemma namespace_switch_first_witness :
  exists out m' w',
    DoOneMigration sample_check sample_name_string use_fails (New "") override_db
      safe_script empty_world = (out, m', w')
    /\ new_events empty_world w'
       = [EvBeginTx 0 None;
          EvExec (Some 0) (StUse "app") (Some (ErrNew "unknown database"));
          EvRollback 0]
    /\ out = Returned (None,
                       Some (ErrWrap (ErrNew "unknown database")
                               "Set search path to app for lib: m2"))
    /\ m' = safe_script /\ tracking w' = [].
Proof.
  destruct (namespace_switch_first sample_check sample_name_string use_fails
              (New "") override_db safe_script empty_world eq_refl eq_refl eq_refl)
    as (out & m' & w' & rest & Hrun & Hev & Hfail).
  destruct (Hfail (ErrNew "unknown database") eq_refl) as (Hrest & Hout & Hm & Ht).
  exists out, m', w'. rewrite Hrest in Hev. repeat split; assumption.
Defined.

Lemma unsupported_migration_panics_witness :
  exists m' w',
    DoOneMigration sample_check sample_name_string no_faults (New "") sample_db
      empty_migration empty_world = (Panicked, m', w')
    /\ new_events first_tx_open w' = [EvCommit 0 None]
    /\ status_writes (new_events empty_world w') = []
    /\ tracking w' = []
    /\ m' = SetStatus empty_migration {| Done := true; ErrorText := "" |}.
Proof.
  apply (unsupported_migration_panics sample_check sample_name_string no_faults
           (New "") sample_db empty_migration empty_world first_tx_open first_tx_open 0).
  - discriminate.
  - reflexivity.
  - reflexivity.
Defined.

Lemma DoOneMigration_error_names_migration_witness :
  (mentions "lib: m1" "Problem with migration lib: m1"
   \/ (ErrWrap (ErrNew "boom") "Problem with migration lib: m1"
        = ErrNew ("Options.SchemaOverride must be a simple identifier, not '"
                  +++ "" +++ "'")
       /\ override_rejected sample_db = true))
  /\ (mentions "lib: m2"
        "Options.SchemaOverride must be a simple identifier, not 'app; DROP TABLE x'"
      \/ (ErrNew "Options.SchemaOverride must be a simple identifier, not 'app; DROP TABLE x'"
           = ErrNew ("Options.SchemaOverride must be a simple identifier, not '"
                     +++ "app; DROP TABLE x" +++ "'")
          /\ override_rejected bad_override_db = true)).
Proof.
  split.
  - destruct (DoOneMigration_error_names_migration sample_check sample_name_string
                no_faults (New "") sample_db failing_computed empty_world)
      as (out & m' & w' & Hrun & Hnames).
    vm_compute in Hrun. injection Hrun as Hout _ _.
    exact (Hnames None (ErrWrap (ErrNew "boom") "Problem with migration lib: m1")
             (eq_sym Hout)).
  - destruct (DoOneMigration_error_names_migration sample_check sample_name_string
                no_faults (New "") bad_override_db safe_script empty_world)
      as (out & m' & w' & Hrun & Hnames).
    vm_compute in Hrun. injection Hrun as Hout _ _.
    exact (Hnames None
             (ErrNew "Options.SchemaOverride must be a simple identifier, not 'app; DROP TABLE x'")
             (eq_sym Hout)).
Defined.

Lemma successful_run_leaves_one_row_witness :
  let w' := snd (DoOneMigration sample_check sample_name_string no_faults (New "")
                   sample_db safe_script empty_world) in
  let row := status_row (New "") sample_db safe_script true "" in
  filter (same_key row) (tracking w') = [row]
  /\ filter (fun x => negb (same_key row x)) (tracking w') = [].
Proof.
  exact (successful_run_leaves_one_row sample_check sample_name_string no_faults
           (New "") sample_db safe_script _ empty_world _ _ eq_refl).
Defined.

Lemma lock_then_unlock_witness :
  exists p1 w1,
    LockMigrationsTable no_faults (New "") sample_db empty_world = (None, p1, w1)
    /\ lockTx p1 = Some 0 /\ lockStr p1 = "libschema_libschema.tracking"
    /\ exists p2 w2,
    UnlockMigrationsTable no_faults p1 w1 = (None, p2, w2)
    /\ lockTx p2 = None /\ lockStr p2 = "libschema_libschema.tracking"
    /\ new_events empty_world w2
       = [EvBeginTx 0 None;
          EvExec (Some 0) (StGetLock "libschema_libschema.tracking") None;
          EvExec (Some 0) (StReleaseLock "libschema_libschema.tracking") None;
          EvRollback 0]
    /\ pending 0 (open_tx w2) = None
    /\ tracking w2 = [].
Proof.
  exact (lock_then_unlock no_faults (New "") sample_db empty_world
           "libschema" "libschema.tracking" eq_refl eq_refl eq_refl eq_refl).
Defined.

Lemma lock_refused_leaves_transaction_open_witness :
  exists p' w',
    LockMigrationsTable getlock_fails (New "") sample_db empty_world
    = (Some (ErrWrap (ErrNew "lock wait interrupted")
               "Could not get lock for libschema migrations"), p', w')
    /\ lockTx p' = None /\ lockStr p' = "libschema_libschema.tracking"
    /\ new_events empty_world w'
       = [EvBeginTx 0 None;
          EvExec (Some 0) (StGetLock "libschema_libschema.tracking")
            (Some (ErrNew "lock wait interrupted"))]
    /\ pending 0 (open_tx w') = Some [].
Proof.
  exact (lock_refused_leaves_transaction_open getlock_fails (New "") sample_db
           empty_world "libschema" "libschema.tracking"
           (ErrNew "lock wait interrupted") eq_refl eq_refl eq_refl eq_refl).
Defined.

Lemma lock_error_keeps_handle_witness :
  let r := LockMigrationsTable getlock_fails (New "") sample_db empty_world in
  lockTx (snd (fst r)) = lockTx (New "") /\ tracking (snd r) = [].
Proof.
  exact (lock_error_keeps_handle getlock_fails (New "") _ sample_db empty_world _ _
           eq_refl).
Defined.

Lemma default_tracking_table_is_safe_witness :
  all_safe (trackingTable (New "") bad_tracking_db) = true
  /\ trackingTable (New "") bad_tracking_db = "".
Proof.
  destruct (default_tracking_table_is_safe "" bad_tracking_db) as [Hsafe Hempty].
  split; [exact Hsafe|]. apply Hempty. discriminate.
Defined.

Lemma CreateSchemaTableIfNotExists_statements_witness :
  exists err w',
    CreateSchemaTableIfNotExists no_faults (New "") sample_db empty_world = (err, w')
    /\ err = None
    /\ only_logs empty_world w'
         [EvExec None (StCreateSchema "libschema") None;
          EvExec None (StCreateTable "libschema.tracking") None].
Proof.
  exact (CreateSchemaTableIfNotExists_statements no_faults (New "") sample_db
           empty_world "libschema" "libschema.tracking" eq_refl).
Defined.

Lemma LoadStatus_reads_only_witness :
  exists d' w',
    LoadStatus query_fails (New "") one_migration_db broken_row_world
    = ([], Some (ErrWrap (ErrNew "table not found") "Cannot query migration status"),
       d', w')
    /\ d' = one_migration_db
    /\ only_logs broken_row_world w'
         [EvExec None (StSelectStatus "tracking") (Some (ErrNew "table not found"))].
Proof.
  destruct (LoadStatus_reads_only query_fails (New "") one_migration_db broken_row_world)
    as (unknowns & err & d' & w' & Hrun & Hlogs & Hfail).
  destruct (Hfail (ErrNew "table not found") eq_refl) as (Hu & He & Hd).
  exists d', w'. rewrite Hu, He in Hrun. repeat split; try assumption; apply Hlogs.
Defined.

Lemma LoadStatus_scan_error_witness :
  exists d' w',
    LoadStatus scan_fails (New "") one_migration_db broken_row_world
    = ([], Some (ErrWrap (ErrNew "converting NULL to bool") "Cannot scan migration status"),
       d', w')
    /\ forall n, Lookup d' n
                 = match last_status [sample_row "m1" true] n with
                   | Some b => option_map (loaded b) (Lookup one_migration_db n)
                   | None => Lookup one_migration_db n
                   end.
Proof.
  apply (LoadStatus_scan_error scan_fails (New "") one_migration_db broken_row_world
           [sample_row "m1" true] [sample_row "gone" true] (sample_row "broken" true)
           (ErrNew "converting NULL to bool")).
  - reflexivity.
  - reflexivity.
  - intros x [<-|[]]. reflexivity.
  - reflexivity.
Defined.

Lemma run_then_load_witness :
  let w' := snd (DoOneMigration sample_check sample_name_string no_faults (New "")
                   known_db safe_script empty_world) in
  exists unknowns d' w'',
    LoadStatus no_faults (New "") known_db w' = (unknowns, None, d', w'')
    /\ Lookup d' (BaseName (Base safe_script))
       = Some (SetStatus safe_script {| Done := true; ErrorText := "" |}).
Proof.
  apply (run_then_load sample_check sample_name_string no_faults (New "") known_db
           safe_script _ safe_script empty_world _ _ eq_refl).
  - reflexivity.
  - reflexivity.
  - intros r _. reflexivity.
Defined.

Lemma constructors_supported_witness :
  IsMigrationSupported sample_name_string (Script "m" "SELECT 1" []) = None
  /\ IsMigrationSupported sample_name_string
       (Generate "m" (Some (fun _ => "SELECT 1")) []) = None
  /\ IsMigrationSupported sample_name_string (Computed "m" None []) <> None.
Proof.
  destruct (constructors_supported sample_name_string "m" "SELECT 1"
              (Some (fun _ => "SELECT 1")) None []) as (Hs & Hg & Hc).
  split; [exact Hs|]. split.
  - apply (proj2 Hg). discriminate.
  - intros H. apply (proj1 Hc) in H. now elim H.
Defined.
